(** * Pametni kalkulator: the safe expression evaluator and its collaborators

    A shallow embedding of [pametni_kalkulator.py].  The program parses a
    string with the host's [ast.parse], walks the tree with [safe_eval]
    under the allow-list [ALLOWED_OPERATORS], and wraps every failure in a
    [ValueError].  Around it sit the equation solver (sympy), the
    word-problem heuristic and the Tk form with its history log.

    The host is CPython 3.8 to 3.13, where the parser produces
    [ast.Constant] nodes and [ast.Num] is the deprecated alias whose
    instance check accepts a constant holding an [int], [float] or
    [complex] that is not a [bool].  Exceptions are values: a call that
    raises is a [Raise] outcome; the messages of the host's exceptions are
    those of CPython 3.11.  A Python [str] is the [string] of its
    UTF-8 bytes.  Integers are exact ([Z]); floats are IEEE-754 binary64
    through [SpecFloat].  What CPython leaves to the C library or to other
    packages (float power and remainder, complex arithmetic, number
    rendering, the Unicode tables, sympy) is a field of a host record.
    Recursion depth and memory limits of the interpreter are not part of
    the embedding. *)

From Stdlib Require Import ZArith QArith List String Ascii Bool Lia.
From Stdlib Require Import Qround Qpower DecimalString.
From Stdlib Require Import SpecFloat.
Import ListNotations.

Set Warnings "-register-all".

Local Open Scope string_scope.
Local Open Scope Z_scope.

(** ** Exceptions and outcomes *)

Module Py.

(** Classes derived from [Exception]: what [except Exception] catches. *)
Inductive exception_class : Set :=
| SyntaxError
| ValueError
| TypeError
| ZeroDivisionError
| OverflowError
| AttributeError
| SympifyError
| OtherError (name : string).

(** An exception instance; [exc_message] is [str(e)]. *)
Record exception : Set := mk_exception {
  exc_class : exception_class;
  exc_message : string
}.

(** Everything a [raise] can carry: an instance of a class derived from
    [Exception], or of a class derived from [BaseException] only, which
    [except Exception] lets through and a bare [except:] does not.  The
    interpreter has three such classes, and a program can define more. *)
Inductive base_exception : Set :=
| Exc (e : exception)
| SystemExit
| KeyboardInterrupt
| GeneratorExit
| OtherBaseException (name : string).

Inductive outcome (E A : Type) : Type :=
| Return (a : A)
| Raise (e : E).

Arguments Return {E A} a.
Arguments Raise {E A} e.

Definition bind {E A B} (c : outcome E A) (k : A -> outcome E B) : outcome E B :=
  match c with
  | Return a => k a
  | Raise e => Raise e
  end.

(** [try: c  except Exception as e: h e] for a body that raises any
    [base_exception]. *)
Definition try_except_Exception {A} (c : outcome base_exception A)
    (h : exception -> outcome base_exception A) : outcome base_exception A :=
  match c with
  | Return a => Return a
  | Raise (Exc e) => h e
  | Raise b => Raise b
  end.

(** [try: c  except: h], the bare handler. *)
Definition try_except_all {E A} (c : outcome E A) (h : A) : A :=
  match c with
  | Return a => a
  | Raise _ => h
  end.

(** A callee that raises only [Exception]s, seen from a caller that may
    also see a [BaseException]. *)
Definition lift {A} (c : outcome exception A) : outcome base_exception A :=
  match c with
  | Return a => Return a
  | Raise e => Raise (Exc e)
  end.

Definition raise {A} (c : exception_class) (msg : string) : outcome exception A :=
  Raise (mk_exception c msg).

End Py.
Export Py.

Declare Scope py_scope.
Notation "x <- c ;; k" := (bind c (fun x => k))
  (at level 61, c at next level, right associativity) : py_scope.
Local Open Scope py_scope.

(** ** Numbers *)

(** binary64 *)
Definition float : Set := spec_float.
Definition prec : Z := 53.
Definition emax : Z := 1024.

Inductive value : Set :=
| VInt (n : Z)
| VBool (b : bool)
| VFloat (x : float)
| VComplex (re im : float).

Definition complex : Set := (float * float)%type.

(** [bool] is a subclass of [int]: in arithmetic [True] is 1. *)
Definition int_like (v : value) : option Z :=
  match v with
  | VInt n => Some n
  | VBool b => Some (Z.b2z b)
  | _ => None
  end.

Definition is_complex (v : value) : bool :=
  match v with
  | VComplex _ _ => true
  | _ => false
  end.

(** [PyLong_AsDouble]: round to nearest, ties to even; too large raises. *)
Definition float_of_int (n : Z) : outcome exception float :=
  match binary_normalize prec emax n 0 false with
  | S754_infinity _ => raise OverflowError "int too large to convert to float"
  | x => Return x
  end.

Definition to_float (v : value) : outcome exception float :=
  match v with
  | VInt n => float_of_int n
  | VBool b => float_of_int (Z.b2z b)
  | VFloat x => Return x
  | VComplex _ _ =>
      raise TypeError
        "float() argument must be a string or a real number, not 'complex'"
  end.

Definition to_complex (v : value) : outcome exception complex :=
  match v with
  | VComplex re im => Return (re, im)
  | _ => x <- to_float v ;; Return (x, S754_zero false)
  end.

(** [x == 0.0] on a double: true of both zeros, false of NaN. *)
Definition float_is_zero (x : float) : bool :=
  match x with
  | S754_zero _ => true
  | _ => false
  end.

Definition complex_is_zero (c : complex) : bool :=
  float_is_zero (fst c) && float_is_zero (snd c).

(** [type(v).__name__] *)
Definition type_name (v : value) : string :=
  match v with
  | VInt _ => "int"
  | VBool _ => "bool"
  | VFloat _ => "float"
  | VComplex _ _ => "complex"
  end.

(** [long_true_divide]: the correctly rounded quotient of two integers. *)
Definition int_true_divide (a b : Z) : outcome exception value :=
  if b =? 0 then raise ZeroDivisionError "division by zero"
  else
    let negate := xorb (a <? 0) (b <? 0) in
    if a =? 0 then Return (VFloat (S754_zero negate))
    else
      let '(q, e, l) := SFdiv_core_binary prec emax (Z.abs a) 0 (Z.abs b) 0 in
      match binary_round_aux prec emax negate q e l with
      | S754_infinity _ =>
          raise OverflowError "integer division result too large for a float"
      | x => Return (VFloat x)
      end.

(** The operator node classes of [ast]: [ast.operator] and [ast.unaryop]. *)
Inductive op_type : Set :=
| Add | Sub | Mult | MatMult | Div | Mod | Pow
| LShift | RShift | BitOr | BitXor | BitAnd | FloorDiv
| Invert | Not | UAdd | USub.

(** What the interpreter takes from the C library for numbers. *)
Record Numerics : Type := {
  (** [float.__pow__], special cases and [pow] of libm; a negative base
      with a fractional exponent gives a complex. *)
  float_pow : float -> float -> outcome exception value;
  (** [float.__mod__] for a divisor that is not zero ([fmod], sign
      adjusted). *)
  float_rem : float -> float -> outcome exception value;
  (** complex [+ - * / **]; [/] is asked only for a non-zero divisor. *)
  complex_arith : op_type -> complex -> complex -> outcome exception value
}.

Section Operators.

Variable libm : Numerics.

(** Binary dispatch of the numeric tower: two ints stay ints, a complex
    operand makes both complex, otherwise both become floats. *)
Definition numeric_binop
    (on_int : Z -> Z -> outcome exception value)
    (on_float : float -> float -> outcome exception value)
    (on_complex : complex -> complex -> outcome exception value)
    (a b : value) : outcome exception value :=
  match int_like a, int_like b with
  | Some x, Some y => on_int x y
  | _, _ =>
      if is_complex a || is_complex b
      then x <- to_complex a ;; y <- to_complex b ;; on_complex x y
      else x <- to_float a ;; y <- to_float b ;; on_float x y
  end.

(** [operator.add] *)
Definition op_add : value -> value -> outcome exception value :=
  numeric_binop
    (fun x y => Return (VInt (x + y)))
    (fun x y => Return (VFloat (SFadd prec emax x y)))
    (complex_arith libm Add).

(** [operator.sub] *)
Definition op_sub : value -> value -> outcome exception value :=
  numeric_binop
    (fun x y => Return (VInt (x - y)))
    (fun x y => Return (VFloat (SFsub prec emax x y)))
    (complex_arith libm Sub).

(** [operator.mul] *)
Definition op_mul : value -> value -> outcome exception value :=
  numeric_binop
    (fun x y => Return (VInt (x * y)))
    (fun x y => Return (VFloat (SFmul prec emax x y)))
    (complex_arith libm Mult).

(** [operator.truediv] *)
Definition op_truediv : value -> value -> outcome exception value :=
  numeric_binop
    int_true_divide
    (fun x y =>
       if float_is_zero y then raise ZeroDivisionError "float division by zero"
       else Return (VFloat (SFdiv prec emax x y)))
    (fun x y =>
       if complex_is_zero y
       then raise ZeroDivisionError "complex division by zero"
       else complex_arith libm Div x y).

(** [operator.pow]: a negative integer exponent goes through floats. *)
Definition op_pow : value -> value -> outcome exception value :=
  numeric_binop
    (fun x y =>
       if 0 <=? y then Return (VInt (x ^ y))
       else fx <- float_of_int x ;; fy <- float_of_int y ;; float_pow libm fx fy)
    (float_pow libm)
    (complex_arith libm Pow).

(** [operator.mod]: floor modulo, the sign of the divisor; complex has
    no [%]. *)
Definition op_mod (a b : value) : outcome exception value :=
  match int_like a, int_like b with
  | Some x, Some y =>
      if y =? 0 then raise ZeroDivisionError "integer modulo by zero"
      else Return (VInt (x mod y))
  | _, _ =>
      if is_complex a || is_complex b
      then
        raise TypeError
          ("unsupported operand type(s) for %: '" ++ type_name a
           ++ "' and '" ++ type_name b ++ "'")
      else
        x <- to_float a ;; y <- to_float b ;;
        if float_is_zero y then raise ZeroDivisionError "float modulo"
        else float_rem libm x y
  end.

(** [operator.neg] *)
Definition op_neg (a : value) : outcome exception value :=
  match a with
  | VInt n => Return (VInt (- n))
  | VBool b => Return (VInt (- Z.b2z b))
  | VFloat x => Return (VFloat (SFopp x))
  | VComplex re im => Return (VComplex (SFopp re) (SFopp im))
  end.

(** [operator.pos] *)
Definition op_pos (a : value) : outcome exception value :=
  match a with
  | VBool b => Return (VInt (Z.b2z b))
  | _ => Return a
  end.

(** A function of [operator], with its name and arity. *)
Inductive callable : Type :=
| Binary (name : string) (f : value -> value -> outcome exception value)
| Unary (name : string) (f : value -> outcome exception value).

(** [f(x)] *)
Definition call1 (f : callable) (x : value) : outcome exception value :=
  match f with
  | Unary _ g => g x
  | Binary name _ => raise TypeError (name ++ " expected 2 arguments, got 1")
  end.

(** [f(x, y)] *)
Definition call2 (f : callable) (x y : value) : outcome exception value :=
  match f with
  | Binary _ g => g x y
  | Unary name _ =>
      raise TypeError
        ("_operator." ++ name ++ "() takes exactly one argument (2 given)")
  end.

(** The allow-list: a dictionary from operator class to function; [None]
    is a missing key. *)
Definition ALLOWED_OPERATORS (op : op_type) : option callable :=
  match op with
  | Add => Some (Binary "add" op_add)
  | Sub => Some (Binary "sub" op_sub)
  | Mult => Some (Binary "mul" op_mul)
  | Div => Some (Binary "truediv" op_truediv)
  | Pow => Some (Binary "pow" op_pow)
  | Mod => Some (Binary "mod" op_mod)
  | USub => Some (Unary "neg" op_neg)
  | UAdd => Some (Unary "pos" op_pos)
  | _ => None
  end.

End Operators.

(** ** Syntax trees

    The nodes of the host's [ast] module that an expression can parse to.
    The evaluator names [Expression], [Constant] (and its alias [Num]),
    [BinOp] and [UnaryOp]; every other class is one it does not know. *)

Inductive constant : Set :=
| CNum (v : value)
| CStr (s : string)
| CBytes (s : string)
| CNone
| CEllipsis.

Inductive boolop : Set := And | Or.

Inductive cmpop : Set :=
| CmpEq | CmpNotEq | CmpLt | CmpLtE | CmpGt | CmpGtE
| CmpIs | CmpIsNot | CmpIn | CmpNotIn.

Inductive node : Set :=
| Expression (body : node)
| Constant (value : constant)
| BinOp (left : node) (op : op_type) (right : node)
| UnaryOp (op : op_type) (operand : node)
| BoolOp (op : boolop) (values : list node)
| Compare (left : node) (ops : list cmpop) (comparators : list node)
| IfExp (test body orelse : node)
| Lambda (args : list string) (body : node)
| Call (func : node) (args : list node)
| Attribute (value : node) (attr : string)
| Subscript (value slice : node)
| Name (id : string)
| ListNode (elts : list node)
| TupleNode (elts : list node)
| SetNode (elts : list node)
| DictNode (keys values : list node).

(** [isinstance(node, ast.Num)] on a [Constant], answering [node.n]:
    the alias accepts [int], [float] and [complex] values, not [bool]. *)
Definition isinstance_Num (c : constant) : option value :=
  match c with
  | CNum (VInt n) => Some (VInt n)
  | CNum (VFloat x) => Some (VFloat x)
  | CNum (VComplex re im) => Some (VComplex re im)
  | _ => None
  end.

(** [isinstance(node.value, (int, float))], answering [node.value]:
    a [bool] is an [int]. *)
Definition isinstance_int_float (c : constant) : option value :=
  match c with
  | CNum (VInt n) => Some (VInt n)
  | CNum (VBool b) => Some (VBool b)
  | CNum (VFloat x) => Some (VFloat x)
  | _ => None
  end.

(** ** The evaluator *)

Section Evaluator.

Variable libm : Numerics.

Fixpoint safe_eval (node : node) : outcome exception value :=
  match node with
  | Expression body => safe_eval body
  | Constant value =>
      match isinstance_Num value with
      | Some n => Return n
      | None =>
          match isinstance_int_float value with
          | Some v => Return v
          | None => raise ValueError "Dozvoljeni su samo brojevi."
          end
      end
  | BinOp node_left op node_right =>
      match ALLOWED_OPERATORS libm op with
      | None => raise ValueError "Operator nije dozvoljen."
      | Some f =>
          left <- safe_eval node_left ;;
          right <- safe_eval node_right ;;
          call2 f left right
      end
  | UnaryOp op node_operand =>
      match ALLOWED_OPERATORS libm op with
      | None => raise ValueError "Operator nije dozvoljen."
      | Some f =>
          operand <- safe_eval node_operand ;;
          call1 f operand
      end
  | _ => raise ValueError "Nevažeći izraz."
  end.

(** [str.replace] for a pattern of one character. *)
Fixpoint str_replace (old : ascii) (new : string) (s : string) : string :=
  match s with
  | EmptyString => EmptyString
  | String c rest =>
      if Ascii.eqb c old then new ++ str_replace old new rest
      else String c (str_replace old new rest)
  end.

(** [ast.parse(_, mode='eval')] *)
Variable ast_parse : string -> outcome exception node.

Definition evaluate_expression (expr_str : string) : outcome exception value :=
  match
    (let expr_str := str_replace "^" "**" expr_str in
     tree <- ast_parse expr_str ;;
     safe_eval tree)
  with
  | Return v => Return v
  | Raise e => raise ValueError ("Nevažeći izraz ili operator: " ++ exc_message e)
  end.

End Evaluator.

(** ** A reference parser

    [ast.parse] belongs to the host.  [py_parse] is a reference reading of
    its expression grammar on ASCII text: integer literals in the four
    bases, decimal floats and imaginary numbers, plain quoted strings,
    names and keyword constants, the operators with their precedence,
    calls with positional arguments, attributes, subscripts, displays,
    lambdas of plain parameters and conditional expressions.  On text
    outside this fragment (comprehensions, slices, starred and keyword
    arguments, assignment expressions, string prefixes, escapes and
    adjacent strings, line continuations, non-ASCII characters) it answers
    [SyntaxError], which the host may not; it does not check the
    indentation after a line end; and the message of a syntax error is
    the host's own.  The general results below hold for every parser;
    [py_parse] runs the examples. *)

Module Parser.

Inductive token : Set :=
| NUMBER (v : value)
| STRING (s : string)
| NAME (id : string)
| OP (s : string)
| NEWLINE.

Definition syntax_error {A} : outcome exception A :=
  raise SyntaxError "invalid syntax".

Definition in_range (lo hi : nat) (c : ascii) : bool :=
  let n := nat_of_ascii c in (lo <=? n)%nat && (n <=? hi)%nat.

Definition is_digit : ascii -> bool := in_range 48 57.
Definition is_octal : ascii -> bool := in_range 48 55.
Definition is_binary : ascii -> bool := in_range 48 49.
Definition is_hex (c : ascii) : bool :=
  is_digit c || in_range 65 70 c || in_range 97 102 c.
Definition is_name_start (c : ascii) : bool :=
  in_range 65 90 c || in_range 97 122 c || Ascii.eqb c "_".
Definition is_name_char (c : ascii) : bool := is_name_start c || is_digit c.
Definition is_blank (c : ascii) : bool :=
  Ascii.eqb c " " || Ascii.eqb c "009" || Ascii.eqb c "012".
Definition is_newline (c : ascii) : bool :=
  Ascii.eqb c "010" || Ascii.eqb c "013".

Definition digit_value (c : ascii) : Z :=
  let n := Z.of_nat (nat_of_ascii c) in
  if is_digit c then n - 48
  else if in_range 65 70 c then n - 55
  else n - 87.

(** The longest prefix of characters satisfying [ok], and the rest. *)
Fixpoint span (ok : ascii -> bool) (s : string) : string * string :=
  match s with
  | String c rest =>
      if ok c then let '(a, b) := span ok rest in (String c a, b)
      else (EmptyString, s)
  | EmptyString => (EmptyString, EmptyString)
  end.

(** Digits with single underscores between them; [None] when an
    underscore is misplaced or there is no digit. *)
Fixpoint strip_underscores (after_digit : bool) (s : string) : option string :=
  match s with
  | EmptyString => if after_digit then Some EmptyString else None
  | String c rest =>
      if Ascii.eqb c "_" then
        if after_digit then strip_underscores false rest else None
      else option_map (String c) (strip_underscores true rest)
  end.

Definition digits (ok : ascii -> bool) (s : string) : option string * string :=
  let '(chunk, rest) := span (fun c => ok c || Ascii.eqb c "_") s in
  (strip_underscores false chunk, rest).

Fixpoint number_of_digits (base : Z) (acc : Z) (ds : string) : Z :=
  match ds with
  | EmptyString => acc
  | String c rest => number_of_digits base (base * acc + digit_value c) rest
  end.

(** The double nearest to [d * 10 ^ e10]. *)
Definition float_of_decimal (d e10 : Z) : float :=
  if d =? 0 then S754_zero false
  else if 0 <=? e10 then binary_normalize prec emax (d * 10 ^ e10) 0 false
  else
    let '(q, e, l) := SFdiv_core_binary prec emax d 0 (10 ^ (- e10)) 0 in
    binary_round_aux prec emax false q e l.

Definition all_zeros (ds : string) : bool :=
  let '(_, rest) := span (Ascii.eqb "0") ds in
  match rest with EmptyString => true | _ => false end.

Definition based_literal (ok : ascii -> bool) (base : Z) (s : string)
    : outcome exception (token * string) :=
  match digits ok s with
  | (Some ds, rest) => Return (NUMBER (VInt (number_of_digits base 0 ds)), rest)
  | (None, _) => syntax_error
  end.

(** An exponent part [e], [e+] or [e-] followed by digits. *)
Definition exponent_part (s : string) : option (Z * string) :=
  match s with
  | String c rest =>
      if Ascii.eqb c "e" || Ascii.eqb c "E" then
        let '(negative, rest1) :=
          match rest with
          | String "-" r => (true, r)
          | String "+" r => (false, r)
          | _ => (false, rest)
          end in
        match rest1 with
        | String d _ =>
            if is_digit d then
              match digits is_digit rest1 with
              | (Some ds, rest2) =>
                  let e := number_of_digits 10 0 ds in
                  Some (if negative then - e else e, rest2)
              | (None, _) => None
              end
            else None
        | EmptyString => None
        end
      else None
  | EmptyString => None
  end.

Definition imaginary_suffix (s : string) : option string :=
  match s with
  | String c rest => if Ascii.eqb c "j" || Ascii.eqb c "J" then Some rest else None
  | EmptyString => None
  end.

Definition decimal_literal (s : string) : outcome exception (token * string) :=
  let '(int_part, rest) :=
    match s with
    | String "." _ => (Some EmptyString, s)
    | _ => digits is_digit s
    end in
  match int_part with
  | None => syntax_error
  | Some ip =>
      let '(frac_part, rest1) :=
        match rest with
        | String "." r =>
            match r with
            | String d _ =>
                if is_digit d || Ascii.eqb d "_" then
                  let '(fp, r1) := digits is_digit r in (Some fp, r1)
                else (Some (Some EmptyString), r)
            | EmptyString => (Some (Some EmptyString), r)
            end
        | _ => (None, rest)
        end in
      let '(exp_part, rest2) :=
        match exponent_part rest1 with
        | Some (e, r) => (Some e, r)
        | None => (None, rest1)
        end in
      match frac_part, exp_part with
      | None, None =>
          let n := number_of_digits 10 0 ip in
          match imaginary_suffix rest2 with
          | Some rest3 =>
              Return (NUMBER (VComplex (S754_zero false) (float_of_decimal n 0)), rest3)
          | None =>
              if (1 <? String.length ip)%nat && negb (all_zeros ip)
                 && Ascii.eqb (match ip with String c _ => c | _ => " "%char end) "0"
              then syntax_error
              else Return (NUMBER (VInt n), rest2)
          end
      | Some None, _ => syntax_error
      | _, _ =>
          let fp := match frac_part with Some (Some fp) => fp | _ => EmptyString end in
          let e := match exp_part with Some e => e | None => 0 end in
          let x := float_of_decimal (number_of_digits 10 0 (ip ++ fp))
                     (e - Z.of_nat (String.length fp)) in
          match imaginary_suffix rest2 with
          | Some rest3 => Return (NUMBER (VComplex (S754_zero false) x), rest3)
          | None => Return (NUMBER (VFloat x), rest2)
          end
      end
  end.

Definition number_literal (s : string) : outcome exception (token * string) :=
  match s with
  | String "0" (String c rest) =>
      if Ascii.eqb c "x" || Ascii.eqb c "X" then based_literal is_hex 16 rest
      else if Ascii.eqb c "o" || Ascii.eqb c "O" then based_literal is_octal 8 rest
      else if Ascii.eqb c "b" || Ascii.eqb c "B" then based_literal is_binary 2 rest
      else decimal_literal s
  | _ => decimal_literal s
  end.

(** A string literal: the text up to the closing quote, no escapes. *)
Fixpoint string_literal (quote : ascii) (s : string) : option (string * string) :=
  match s with
  | EmptyString => None
  | String c rest =>
      if Ascii.eqb c quote then Some (EmptyString, rest)
      else if Ascii.eqb c "\" || is_newline c then None
      else
        match string_literal quote rest with
        | Some (body, r) => Some (String c body, r)
        | None => None
        end
  end.

Definition operators3 : list string := ["..."].
Definition operators2 : list string :=
  ["**"; "//"; "<<"; ">>"; "<="; ">="; "=="; "!="; "->"; ":="].
Definition operators1 : list string :=
  ["+"; "-"; "*"; "/"; "%"; "@"; "&"; "|"; "^"; "~"; "<"; ">";
   "("; ")"; "["; "]"; "{"; "}"; ","; ":"; "."; ";"; "="].

Definition operator_at (s : string) : option (string * string) :=
  let try (n : nat) (table : list string) :=
    let p := String.substring 0 n s in
    if existsb (String.eqb p) table
    then Some (p, String.substring n (String.length s - n) s) else None in
  match try 3%nat operators3 with
  | Some r => Some r
  | None =>
      match try 2%nat operators2 with
      | Some r => Some r
      | None => try 1%nat operators1
      end
  end.

Definition opens (p : string) : bool := existsb (String.eqb p) ["("; "["; "{"].
Definition closes (p : string) : bool := existsb (String.eqb p) [")"; "]"; "}"].

(** The tokenizer; [depth] counts open brackets, inside which a line end
    is blank. *)
Fixpoint tokenize (fuel : nat) (depth : nat) (s : string)
    : outcome exception (list token) :=
  match fuel with
  | O => syntax_error
  | S fuel =>
      match s with
      | EmptyString => Return []
      | String c rest =>
          if is_blank c then tokenize fuel depth rest
          else if is_newline c then
            if (depth =? 0)%nat
            then ts <- tokenize fuel depth rest ;; Return (NEWLINE :: ts)
            else tokenize fuel depth rest
          else if Ascii.eqb c "#" then
            tokenize fuel depth (snd (span (fun c => negb (is_newline c)) rest))
          else if is_digit c
                  || (Ascii.eqb c "."
                      && match rest with String d _ => is_digit d | _ => false end)
          then
            r <- number_literal s ;;
            ts <- tokenize fuel depth (snd r) ;; Return (fst r :: ts)
          else if is_name_start c then
            let '(id, rest1) := span is_name_char s in
            ts <- tokenize fuel depth rest1 ;; Return (NAME id :: ts)
          else if Ascii.eqb c "'" || Ascii.eqb c "034" then
            match string_literal c rest with
            | Some (body, rest1) =>
                ts <- tokenize fuel depth rest1 ;; Return (STRING body :: ts)
            | None => syntax_error
            end
          else
            match operator_at s with
            | Some (p, rest1) =>
                let depth1 :=
                  if opens p then S depth
                  else if closes p then Nat.pred depth else depth in
                ts <- tokenize fuel depth1 rest1 ;; Return (OP p :: ts)
            | None => syntax_error
            end
      end
  end.

(** *** The grammar *)

Definition parsed (A : Type) : Type := outcome exception (A * list token).

Definition is_op (p : string) (t : token) : bool :=
  match t with
  | OP q => String.eqb p q
  | _ => false
  end.

Definition is_kw (k : string) (t : token) : bool :=
  match t with
  | NAME id => String.eqb k id
  | _ => false
  end.

Definition expect (p : string) (ts : list token) : outcome exception (list token) :=
  match ts with
  | t :: rest => if is_op p t then Return rest else syntax_error
  | [] => syntax_error
  end.

Definition keywords : list string :=
  ["False"; "None"; "True"; "and"; "as"; "assert"; "async"; "await";
   "break"; "class"; "continue"; "def"; "del"; "elif"; "else"; "except";
   "finally"; "for"; "from"; "global"; "if"; "import"; "in"; "is";
   "lambda"; "nonlocal"; "not"; "or"; "pass"; "raise"; "return"; "try";
   "while"; "with"; "yield"].

Definition is_keyword (id : string) : bool := existsb (String.eqb id) keywords.

Definition lookup_op {A} (table : list (string * A)) (t : token) : option A :=
  match t with
  | OP p => option_map snd (find (fun e => String.eqb p (fst e)) table)
  | _ => None
  end.

(** The left-associative binary levels, loosest first. *)
Definition binary_operator (level : nat) : token -> option op_type :=
  lookup_op
    match level with
    | 0%nat => [("|", BitOr)]
    | 1%nat => [("^", BitXor)]
    | 2%nat => [("&", BitAnd)]
    | 3%nat => [("<<", LShift); (">>", RShift)]
    | 4%nat => [("+", Add); ("-", Sub)]
    | 5%nat => [("*", Mult); ("/", Div); ("//", FloorDiv); ("%", Mod); ("@", MatMult)]
    | _ => []
    end.

Definition comparison_operator (ts : list token) : option (cmpop * list token) :=
  match ts with
  | t :: rest =>
      match lookup_op [("==", CmpEq); ("!=", CmpNotEq); ("<", CmpLt);
                       ("<=", CmpLtE); (">", CmpGt); (">=", CmpGtE)] t with
      | Some op => Some (op, rest)
      | None =>
          if is_kw "in" t then Some (CmpIn, rest)
          else
            match rest with
            | t1 :: rest1 =>
                if is_kw "not" t && is_kw "in" t1 then Some (CmpNotIn, rest1)
                else if is_kw "is" t && is_kw "not" t1 then Some (CmpIsNot, rest1)
                else if is_kw "is" t then Some (CmpIs, rest)
                else None
            | [] => if is_kw "is" t then Some (CmpIs, rest) else None
            end
      end
  | [] => None
  end.

Fixpoint lambda_params (ts : list token) : list string * list token :=
  match ts with
  | NAME id :: rest =>
      if is_keyword id then ([], ts)
      else
        match rest with
        | t :: rest1 =>
            if is_op "," t
            then let '(ps, r) := lambda_params rest1 in (id :: ps, r)
            else ([id], rest)
        | [] => ([id], rest)
        end
  | _ => ([], ts)
  end.

(** One function per rule of the grammar; [fuel] bounds the nesting. *)
Fixpoint expression (fuel : nat) (ts : list token) {struct fuel} : parsed node :=
  match fuel with
  | O => syntax_error
  | S fuel =>
      match ts with
      | t :: rest =>
          if is_kw "lambda" t then
            let '(params, rest1) := lambda_params rest in
            rest2 <- expect ":" rest1 ;;
            r <- expression fuel rest2 ;;
            Return (Lambda params (fst r), snd r)
          else conditional fuel ts
      | [] => syntax_error
      end
  end

with conditional (fuel : nat) (ts : list token) {struct fuel} : parsed node :=
  match fuel with
  | O => syntax_error
  | S fuel =>
      r <- disjunction fuel ts ;;
      match snd r with
      | t :: rest =>
          if is_kw "if" t then
            c <- disjunction fuel rest ;;
            match snd c with
            | t1 :: rest1 =>
                if is_kw "else" t1 then
                  e <- expression fuel rest1 ;;
                  Return (IfExp (fst c) (fst r) (fst e), snd e)
                else syntax_error
            | [] => syntax_error
            end
          else Return r
      | [] => Return r
      end
  end

with disjunction (fuel : nat) (ts : list token) {struct fuel} : parsed node :=
  match fuel with
  | O => syntax_error
  | S fuel =>
      r <- conjunction fuel ts ;;
      rs <- bool_rest fuel true (snd r) ;;
      match fst rs with
      | [] => Return (fst r, snd rs)
      | vs => Return (BoolOp Or (fst r :: vs), snd rs)
      end
  end

with conjunction (fuel : nat) (ts : list token) {struct fuel} : parsed node :=
  match fuel with
  | O => syntax_error
  | S fuel =>
      r <- inversion fuel ts ;;
      rs <- bool_rest fuel false (snd r) ;;
      match fst rs with
      | [] => Return (fst r, snd rs)
      | vs => Return (BoolOp And (fst r :: vs), snd rs)
      end
  end

with bool_rest (fuel : nat) (is_or : bool) (ts : list token) {struct fuel}
    : parsed (list node) :=
  match fuel with
  | O => syntax_error
  | S fuel =>
      match ts with
      | t :: rest =>
          if is_kw (if is_or then "or" else "and") t then
            r <- (if is_or then conjunction fuel rest else inversion fuel rest) ;;
            rs <- bool_rest fuel is_or (snd r) ;;
            Return (fst r :: fst rs, snd rs)
          else Return ([], ts)
      | [] => Return ([], ts)
      end
  end

with inversion (fuel : nat) (ts : list token) {struct fuel} : parsed node :=
  match fuel with
  | O => syntax_error
  | S fuel =>
      match ts with
      | t :: rest =>
          if is_kw "not" t then
            r <- inversion fuel rest ;; Return (UnaryOp Not (fst r), snd r)
          else comparison fuel ts
      | [] => syntax_error
      end
  end

with comparison (fuel : nat) (ts : list token) {struct fuel} : parsed node :=
  match fuel with
  | O => syntax_error
  | S fuel =>
      r <- binary fuel 0%nat ts ;;
      cs <- comparison_rest fuel (snd r) ;;
      match fst cs with
      | [] => Return (fst r, snd cs)
      | l => Return (Compare (fst r) (map fst l) (map snd l), snd cs)
      end
  end

with comparison_rest (fuel : nat) (ts : list token) {struct fuel}
    : parsed (list (cmpop * node)) :=
  match fuel with
  | O => syntax_error
  | S fuel =>
      match comparison_operator ts with
      | Some (op, rest) =>
          r <- binary fuel 0%nat rest ;;
          cs <- comparison_rest fuel (snd r) ;;
          Return ((op, fst r) :: fst cs, snd cs)
      | None => Return ([], ts)
      end
  end

with binary (fuel : nat) (level : nat) (ts : list token) {struct fuel} : parsed node :=
  match fuel with
  | O => syntax_error
  | S fuel =>
      if (6 <=? level)%nat then factor fuel ts
      else
        r <- binary fuel (S level) ts ;;
        binary_rest fuel level (fst r) (snd r)
  end

with binary_rest (fuel : nat) (level : nat) (lhs : node) (ts : list token)
    {struct fuel} : parsed node :=
  match fuel with
  | O => syntax_error
  | S fuel =>
      match ts with
      | t :: rest =>
          match binary_operator level t with
          | Some op =>
              r <- binary fuel (S level) rest ;;
              binary_rest fuel level (BinOp lhs op (fst r)) (snd r)
          | None => Return (lhs, ts)
          end
      | [] => Return (lhs, ts)
      end
  end

with factor (fuel : nat) (ts : list token) {struct fuel} : parsed node :=
  match fuel with
  | O => syntax_error
  | S fuel =>
      match ts with
      | t :: rest =>
          match lookup_op [("+", UAdd); ("-", USub); ("~", Invert)] t with
          | Some op => r <- factor fuel rest ;; Return (UnaryOp op (fst r), snd r)
          | None => power fuel ts
          end
      | [] => syntax_error
      end
  end

with power (fuel : nat) (ts : list token) {struct fuel} : parsed node :=
  match fuel with
  | O => syntax_error
  | S fuel =>
      r <- primary fuel ts ;;
      match snd r with
      | t :: rest =>
          if is_op "**" t then
            e <- factor fuel rest ;; Return (BinOp (fst r) Pow (fst e), snd e)
          else Return r
      | [] => Return r
      end
  end

with primary (fuel : nat) (ts : list token) {struct fuel} : parsed node :=
  match fuel with
  | O => syntax_error
  | S fuel => a <- atom fuel ts ;; trailers fuel (fst a) (snd a)
  end

with trailers (fuel : nat) (f : node) (ts : list token) {struct fuel} : parsed node :=
  match fuel with
  | O => syntax_error
  | S fuel =>
      match ts with
      | t :: rest =>
          if is_op "." t then
            match rest with
            | NAME id :: rest1 => trailers fuel (Attribute f id) rest1
            | _ => syntax_error
            end
          else if is_op "(" t then
            r <- items fuel ")" rest ;;
            trailers fuel (Call f (fst (fst r))) (snd r)
          else if is_op "[" t then
            r <- items fuel "]" rest ;;
            match fst r with
            | ([], _) => syntax_error
            | ([e], false) => trailers fuel (Subscript f e) (snd r)
            | (es, _) => trailers fuel (Subscript f (TupleNode es)) (snd r)
            end
          else Return (f, ts)
      | [] => Return (f, ts)
      end
  end

with atom (fuel : nat) (ts : list token) {struct fuel} : parsed node :=
  match fuel with
  | O => syntax_error
  | S fuel =>
      match ts with
      | NUMBER v :: rest => Return (Constant (CNum v), rest)
      | STRING s :: rest => Return (Constant (CStr s), rest)
      | NAME id :: rest =>
          if String.eqb id "True" then Return (Constant (CNum (VBool true)), rest)
          else if String.eqb id "False" then Return (Constant (CNum (VBool false)), rest)
          else if String.eqb id "None" then Return (Constant CNone, rest)
          else if is_keyword id then syntax_error
          else Return (Name id, rest)
      | OP p :: rest =>
          if String.eqb p "(" then
            r <- items fuel ")" rest ;;
            match fst r with
            | ([e], false) => Return (e, snd r)
            | (es, _) => Return (TupleNode es, snd r)
            end
          else if String.eqb p "[" then
            r <- items fuel "]" rest ;; Return (ListNode (fst (fst r)), snd r)
          else if String.eqb p "{" then
            match rest with
            | t :: rest1 =>
                if is_op "}" t then Return (DictNode [] [], rest1)
                else
                  k <- expression fuel rest ;;
                  match snd k with
                  | t1 :: _ =>
                      if is_op ":" t1 then
                        r <- pairs fuel rest ;;
                        Return (DictNode (map fst (fst r)) (map snd (fst r)), snd r)
                      else
                        r <- items fuel "}" rest ;;
                        Return (SetNode (fst (fst r)), snd r)
                  | [] => syntax_error
                  end
            | [] => syntax_error
            end
          else if String.eqb p "..." then Return (Constant CEllipsis, rest)
          else syntax_error
      | _ => syntax_error
      end
  end

with items (fuel : nat) (close : string) (ts : list token) {struct fuel}
    : parsed (list node * bool) :=
  match fuel with
  | O => syntax_error
  | S fuel =>
      match ts with
      | t :: rest =>
          if is_op close t then Return (([], false), rest)
          else
            e <- expression fuel ts ;;
            match snd e with
            | t1 :: rest1 =>
                if is_op "," t1 then
                  r <- items fuel close rest1 ;;
                  Return ((fst e :: fst (fst r), true), snd r)
                else if is_op close t1 then Return (([fst e], false), rest1)
                else syntax_error
            | [] => syntax_error
            end
      | [] => syntax_error
      end
  end

with pairs (fuel : nat) (ts : list token) {struct fuel}
    : parsed (list (node * node)) :=
  match fuel with
  | O => syntax_error
  | S fuel =>
      match ts with
      | t :: rest =>
          if is_op "}" t then Return ([], rest)
          else
            k <- expression fuel ts ;;
            rest1 <- expect ":" (snd k) ;;
            v <- expression fuel rest1 ;;
            match snd v with
            | t1 :: rest2 =>
                if is_op "," t1 then
                  r <- pairs fuel rest2 ;;
                  Return ((fst k, fst v) :: fst r, snd r)
                else if is_op "}" t1 then Return ([(fst k, fst v)], rest2)
                else syntax_error
            | [] => syntax_error
            end
      | [] => syntax_error
      end
  end.

(** [expression (',' expression)* [',']] at the top: a comma makes a
    tuple. *)
Fixpoint expressions (fuel : nat) (ts : list token) : parsed (list node * bool) :=
  match fuel with
  | O => syntax_error
  | S fuel' =>
      e <- expression fuel ts ;;
      match snd e with
      | t :: rest =>
          if is_op "," t then
            match rest with
            | [] | NEWLINE :: _ => Return (([fst e], true), rest)
            | _ =>
                r <- expressions fuel' rest ;;
                Return ((fst e :: fst (fst r), true), snd r)
            end
          else Return (([fst e], false), snd e)
      | [] => Return (([fst e], false), [])
      end
  end.

Fixpoint skip_newlines (ts : list token) : list token :=
  match ts with
  | NEWLINE :: rest => skip_newlines rest
  | _ => ts
  end.

(** [ast.parse(source, mode='eval')] on the fragment. *)
Definition py_parse (source : string) : outcome exception node :=
  match source with
  | String c _ =>
      if is_blank c then raise SyntaxError "unexpected indent"
      else
        ts <- tokenize (S (String.length source)) 0 source ;;
        r <- expressions (20 * S (List.length ts)) (skip_newlines ts) ;;
        match skip_newlines (snd r) with
        | [] =>
            match fst r with
            | ([e], false) => Return (Expression e)
            | (es, _) => Return (Expression (TupleNode es))
            end
        | _ => syntax_error
        end
  | EmptyString => syntax_error
  end.

End Parser.

(** ** Strings

    [str] methods over the UTF-8 text.  The character classes, the case
    mapping and the number conversions come from the host's Unicode
    tables and number formatter. *)

Record StrHost : Type := {
  (** [s.lower()] *)
  str_lower : string -> string;
  (** [c.isdigit()] for a string of one character *)
  str_isdigit : string -> bool;
  (** [c.isspace()] for a string of one character *)
  str_isspace : string -> bool;
  (** [int(s)] *)
  py_int : string -> outcome exception Z;
  (** [str(x)], as an f-string formats a number *)
  py_str : value -> outcome exception string
}.

Definition is_continuation (c : ascii) : bool := Parser.in_range 128 191 c.

(** The characters of a string: each lead byte with its continuation
    bytes. *)
Fixpoint chars (s : string) : list string :=
  match s with
  | EmptyString => []
  | String c rest =>
      match chars rest with
      | String d ch :: more =>
          if is_continuation d then String c (String d ch) :: more
          else String c EmptyString :: String d ch :: more
      | more => String c EmptyString :: more
      end
  end.

(** [needle in hay] *)
Fixpoint contains (needle hay : string) : bool :=
  String.prefix needle hay
  || match hay with
     | String _ rest => contains needle rest
     | EmptyString => false
     end.

Definition is_empty (s : string) : bool :=
  match s with
  | EmptyString => true
  | _ => false
  end.

(** [s.split(sep, 1)] for a separator of one character that occurs in
    [s]: the text before the first occurrence and the text after it. *)
Fixpoint split_once (sep : ascii) (s : string) : string * string :=
  match s with
  | EmptyString => (EmptyString, EmptyString)
  | String c rest =>
      if Ascii.eqb c sep then (EmptyString, rest)
      else let '(a, b) := split_once sep rest in (String c a, b)
  end.

Section Strings.

Variable host : StrHost.

Fixpoint split_chars (cs : list string) (word : string) : list string :=
  match cs with
  | [] => if is_empty word then [] else [word]
  | c :: rest =>
      if str_isspace host c then
        if is_empty word then split_chars rest EmptyString
        else word :: split_chars rest EmptyString
      else split_chars rest (word ++ c)
  end.

(** [s.split()] *)
Definition str_split (s : string) : list string := split_chars (chars s) EmptyString.

Fixpoint lstrip_chars (cs : list string) : list string :=
  match cs with
  | c :: rest => if str_isspace host c then lstrip_chars rest else cs
  | [] => []
  end.

(** [s.strip()] *)
Definition str_strip (s : string) : string :=
  String.concat EmptyString (rev (lstrip_chars (rev (lstrip_chars (chars s))))).

(** [[f(x) for x in xs]] for an [f] that may raise. *)
Fixpoint comprehension {A B} (f : A -> outcome exception B) (xs : list A)
    : outcome exception (list B) :=
  match xs with
  | [] => Return []
  | x :: rest => y <- f x ;; ys <- comprehension f rest ;; Return (y :: ys)
  end.

(** ** The word-problem heuristic *)

(** The expression both branches compute: the integers written in [t]. *)
Definition numbers_in (t : string) : outcome exception (list Z) :=
  comprehension (py_int host)
    (filter (fun s => negb (is_empty (str_strip s)))
       (str_split
          (String.concat EmptyString
             (map (fun c => if str_isdigit host c || str_isspace host c then c else " ")
                (chars t))))).

(** A [try] block of the function answers [Some text] when it returns and
    [None] when control falls out of it. *)
Definition solve_text_problem (text : string) : outcome base_exception string :=
  let t := str_lower host text in
  let speed_block : option string :=
    if contains "km/h" t || contains "kmh" t || (contains "km" t && contains "h" t)
    then
      try_except_all
        (nums <- numbers_in t ;;
         match nums with
         | speed :: time :: _ =>
             product <- py_str host (VInt (speed * time)) ;;
             Return (Some ("Rezultat: " ++ product ++ " (km)"))
         | _ => Return None
         end)
        None
    else None in
  match speed_block with
  | Some answer => Return answer
  | None =>
      let area_block : option string :=
        if contains "povrsin" t || contains "površin" t || contains "area" t
        then
          try_except_all
            (nums <- numbers_in t ;;
             match nums with
             | a :: b :: _ =>
                 product <- py_str host (VInt (a * b)) ;;
                 Return (Some ("Površina = " ++ product))
             | _ => Return None
             end)
            None
        else None in
      match area_block with
      | Some answer => Return answer
      | None =>
          Return "Ne mogu automatski rešiti ovaj tekstualni zadatak (probaj preciznije)."
      end
  end.

End Strings.

(** ** The equation solver *)

Module Sympy.

(** The calls into sympy.  [sympify] evaluates text, so with the other
    calls it can end in any exception, a [SystemExit] included. *)
Record host : Type := {
  expr : Type;
  symbol : Type;
  (** [sympify(s)] *)
  sympify : string -> outcome base_exception expr;
  (** [list(left.free_symbols.union(right.free_symbols))] *)
  free_symbols : expr -> expr -> outcome base_exception (list symbol);
  (** [abs((left - right).evalf()) < 1e-9] *)
  difference_is_small : expr -> expr -> outcome base_exception bool;
  (** [solve(Eq(left, right), vars)], rendered by the f-string *)
  solve : expr -> expr -> list symbol -> outcome base_exception string
}.

End Sympy.

Section Equations.

Variable sympy : Sympy.host.

Definition solve_equation (equation_str : string) : outcome base_exception string :=
  try_except_Exception
    (let equation_str := str_replace "^" "**" equation_str in
     _ <- (if negb (contains "=" equation_str)
           then lift (raise ValueError "Jednačina mora sadržati '='.")
           else Return tt) ;;
     let '(left_s, right_s) := split_once "=" equation_str in
     left <- Sympy.sympify sympy left_s ;;
     right <- Sympy.sympify sympy right_s ;;
     vars <- Sympy.free_symbols sympy left right ;;
     match vars with
     | [] =>
         small <- Sympy.difference_is_small sympy left right ;;
         if small
         then Return "Istinitost: identično tačno (nema promenljivih)."
         else Return "Nema rešenja (nije jednako)."
     | _ =>
         sol <- Sympy.solve sympy left right vars ;;
         Return ("Rešenje: " ++ sol)
     end)
    (fun e => Return ("Greška pri rešavanju: " ++ exc_message e)).

End Equations.

(** ** The form and its history *)

Module SmartCalcApp.

(** The widgets the methods read and write: the mode menu, the input
    box, the result label, the history view and the history list; and the
    message boxes shown so far. *)
Record app : Type := {
  mode_var : string;
  input_text : string;
  result_label : string;
  history_text : string;
  history : list string;
  messagebox : list (string * string)
}.

Definition set_result_label (text : string) (self : app) : app :=
  {| mode_var := mode_var self; input_text := input_text self;
     result_label := text; history_text := history_text self;
     history := history self; messagebox := messagebox self |}.

Definition showwarning (title message : string) (self : app) : app :=
  {| mode_var := mode_var self; input_text := input_text self;
     result_label := result_label self; history_text := history_text self;
     history := history self;
     messagebox := messagebox self ++ [(title, message)] |}.

Definition set_input_text (text : string) (self : app) : app :=
  {| mode_var := mode_var self; input_text := text;
     result_label := result_label self; history_text := history_text self;
     history := history self; messagebox := messagebox self |}.

(** The user picks a mode in the menu. *)
Definition select_mode (mode : string) (self : app) : app :=
  {| mode_var := mode; input_text := input_text self;
     result_label := result_label self; history_text := history_text self;
     history := history self; messagebox := messagebox self |}.

(** The form as [__init__] builds it. *)
Definition init : app :=
  {| mode_var := "Izraz"; input_text := ""; result_label := "";
     history_text := ""; history := []; messagebox := [] |}.

Definition insert_demo (self : app) : app :=
  let mode := mode_var self in
  let s :=
    if String.eqb mode "Izraz" then "(5 + 3) * 2 - 4^2"
    else if String.eqb mode "Jednačina" then "3*x - 6 = 12"
    else "Auto ide 60 km/h koliko pređe za 2 sata?" in
  set_input_text s self.

Definition clear_input (self : app) : app :=
  set_result_label "" (set_input_text "" self).

Definition showinfo (title message : string) (self : app) : app :=
  {| mode_var := mode_var self; input_text := input_text self;
     result_label := result_label self; history_text := history_text self;
     history := history self;
     messagebox := messagebox self ++ [(title, message)] |}.

Definition newline : string := String "010" EmptyString.

(** [ts] is [datetime.datetime.now().strftime("%Y-%m-%d %H:%M:%S")]. *)
Definition append_history (ts : string) (mode query result : string) (self : app) : app :=
  let line := "[" ++ ts ++ "] (" ++ mode ++ ") " ++ query ++ " -> " ++ result ++ newline in
  {| mode_var := mode_var self; input_text := input_text self;
     result_label := result_label self;
     history_text := history_text self ++ line;
     history := history self ++ [line];
     messagebox := messagebox self |}.

Section Methods.

Variable libm : Numerics.
Variable ast_parse : string -> outcome exception node.
Variable strings : StrHost.
Variable sympy : Sympy.host.

(** The Tk text widget answers its content followed by a line end. *)
Definition solve (ts : string) (self : app) : outcome base_exception app :=
  let mode := mode_var self in
  let query := str_strip strings (input_text self ++ newline) in
  if is_empty query then Return (showwarning "Upozorenje" "Unesi zadatak prvo." self)
  else
    r <- (if String.eqb mode "Izraz" then
            match (res <- evaluate_expression libm ast_parse query ;;
                   py_str strings res) with
            | Return out => Return (out, set_result_label ("Rezultat: " ++ out) self)
            | Raise e =>
                let out := "Greška: " ++ exc_message e in
                Return (out, set_result_label out self)
            end
          else if String.eqb mode "Jednačina" then
            out <- solve_equation sympy query ;;
            Return (out, set_result_label out self)
          else
            out <- solve_text_problem strings query ;;
            Return (out, set_result_label out self)) ;;
    Return (append_history ts mode query (fst r) (snd r)).

(** [open(path, "w", encoding="utf-8")], which the file system may
    refuse. *)
Variable open_w : string -> outcome exception unit.

(** [path] is the answer of the file dialog, empty when the user cancels
    it.  The second component is the file written, if any: its path and
    its content after [writelines]. *)
Definition save_history (path : string) (self : app)
    : outcome exception (app * option (string * string)) :=
  match history self with
  | [] => Return (showinfo "Sačuvaj" "Istorija je prazna." self, None)
  | _ =>
      if is_empty path then Return (self, None)
      else
        _ <- open_w path ;;
        Return (showinfo "Sačuvaj" ("Istorija sačuvana u " ++ path) self,
                Some (path, String.concat EmptyString (history self)))
  end.

(** The form with the files written so far, latest first. *)
Record world : Type := {
  form : app;
  disk : list (string * string)
}.

(** What the user can do: type in the input box, pick a mode, press one
    of the four buttons (and answer the file dialog with a path). *)
Inductive action : Type :=
| Type_text (text : string)
| Pick_mode (mode : string)
| Press_solve (ts : string)
| Press_clear
| Press_demo
| Press_save (path : string).

Definition perform (a : action) (w : world) : outcome base_exception world :=
  match a with
  | Type_text text => Return {| form := set_input_text text (form w); disk := disk w |}
  | Pick_mode mode => Return {| form := select_mode mode (form w); disk := disk w |}
  | Press_solve ts =>
      self <- solve ts (form w) ;; Return {| form := self; disk := disk w |}
  | Press_clear => Return {| form := clear_input (form w); disk := disk w |}
  | Press_demo => Return {| form := insert_demo (form w); disk := disk w |}
  | Press_save path =>
      r <- lift (save_history path (form w)) ;;
      Return {| form := fst r;
                disk := match snd r with
                        | Some file => file :: disk w
                        | None => disk w
                        end |}
  end.

(** A session: the actions in order, up to the first one that ends in an
    exception. *)
Fixpoint run (actions : list action) (w : world) : outcome base_exception world :=
  match actions with
  | [] => Return w
  | a :: rest => w' <- perform a w ;; run rest w'
  end.

End Methods.

(** The content of the file at [path]. *)
Definition read_file (path : string) (files : list (string * string)) : option string :=
  option_map snd (find (fun file => String.eqb path (fst file)) files).

(** The view shows the entries of the list, one after the other. *)
Definition in_sync (self : app) : Prop :=
  history_text self = String.concat EmptyString (history self).

Definition is_solve (a : action) : bool :=
  match a with
  | Press_solve _ => true
  | _ => false
  end.

End SmartCalcApp.

(** ** A reference host for integer input

    Values for the host records on which the model runs: integers and
    ASCII text are computed; what would need the C library, the float
    formatter or sympy raises [NotImplementedError], so that a run which
    depends on it shows as a failure and not as an invented number. *)

Module Reference.

Definition not_implemented {A} : outcome exception A :=
  Raise (mk_exception (OtherError "NotImplementedError") EmptyString).

Definition numerics : Numerics := {|
  float_pow := fun _ _ => not_implemented;
  float_rem := fun _ _ => not_implemented;
  complex_arith := fun _ _ _ => not_implemented
|}.

Definition ascii_lower (c : ascii) : ascii :=
  if Parser.in_range 65 90 c then ascii_of_nat (nat_of_ascii c + 32) else c.

Fixpoint lower (s : string) : string :=
  match s with
  | EmptyString => EmptyString
  | String c rest => String (ascii_lower c) (lower rest)
  end.

Definition one_char (ok : ascii -> bool) (s : string) : bool :=
  match s with
  | String c EmptyString => ok c
  | _ => false
  end.

Definition ascii_isspace (c : ascii) : bool :=
  Parser.in_range 9 13 c || Parser.in_range 28 32 c.

Definition all_digits (s : string) : bool :=
  negb (is_empty s) && is_empty (snd (Parser.span Parser.is_digit s)).

Definition decimal (n : Z) : string := NilZero.string_of_int (Z.to_int n).

(** [sys.get_int_max_str_digits()] *)
Definition int_max_str_digits : nat := 4300.

Definition int_of_digits (s : string) : outcome exception Z :=
  if negb (all_digits s) then
    raise ValueError ("invalid literal for int() with base 10: '" ++ s ++ "'")
  else if (int_max_str_digits <? String.length s)%nat then
    raise ValueError
      ("Exceeds the limit (4300 digits) for integer string conversion: value has "
       ++ decimal (Z.of_nat (String.length s))
       ++ " digits; use sys.set_int_max_str_digits() to increase the limit")
  else Return (Parser.number_of_digits 10 0 s).

Definition str_of_number (v : value) : outcome exception string :=
  match v with
  | VInt n =>
      if (int_max_str_digits <? String.length (decimal (Z.abs n)))%nat then
        raise ValueError
          "Exceeds the limit (4300 digits) for integer string conversion; use sys.set_int_max_str_digits() to increase the limit"
      else Return (decimal n)
  | VBool true => Return "True"
  | VBool false => Return "False"
  | _ => not_implemented
  end.

Definition strings : StrHost := {|
  str_lower := lower;
  str_isdigit := one_char Parser.is_digit;
  str_isspace := one_char ascii_isspace;
  py_int := int_of_digits;
  py_str := str_of_number
|}.

(** A sympy that understands no text. *)
Definition sympy : Sympy.host := {|
  Sympy.expr := unit;
  Sympy.symbol := unit;
  Sympy.sympify := fun s =>
    Raise (Exc (mk_exception SympifyError ("could not parse '" ++ s ++ "'")));
  Sympy.free_symbols := fun _ _ => Return [];
  Sympy.difference_is_small := fun _ _ => Return true;
  Sympy.solve := fun _ _ _ => Return "[]"
|}.

(** A sympy on which the text [__import__('sys').exit()] does what it
    says when [sympify] evaluates it. *)
Definition exiting_sympy : Sympy.host := {|
  Sympy.expr := unit;
  Sympy.symbol := unit;
  Sympy.sympify := fun s =>
    if contains "__import__('sys').exit()" s then Raise SystemExit
    else Raise (Exc (mk_exception SympifyError ("could not parse '" ++ s ++ "'")));
  Sympy.free_symbols := fun _ _ => Return [];
  Sympy.difference_is_small := fun _ _ => Return true;
  Sympy.solve := fun _ _ _ => Return "[]"
|}.

(** The form after the mode "Tekstualni" is picked and the button
    "Primer zadatka" pressed. *)
Definition demo_form : SmartCalcApp.app :=
  SmartCalcApp.insert_demo (SmartCalcApp.select_mode "Tekstualni" SmartCalcApp.init).

End Reference.

(** ** Shapes, values and the walk, for the statements *)

(** Operators of the grammar: binary [+ - * / % **], unary [+ -]. *)
Definition binary_allowed (op : op_type) : bool :=
  match op with
  | Add | Sub | Mult | Div | Pow | Mod => true
  | _ => false
  end.

Definition unary_allowed (op : op_type) : bool :=
  match op with
  | UAdd | USub => true
  | _ => false
  end.

(** A tree all of whose nodes are literals satisfying [literal], allowed
    unary and binary operations, or the [Expression] wrapper. *)
Fixpoint shaped (literal : constant -> bool) (t : node) : bool :=
  match t with
  | Expression body => shaped literal body
  | Constant c => literal c
  | BinOp l op r => binary_allowed op && shaped literal l && shaped literal r
  | UnaryOp op o => unary_allowed op && shaped literal o
  | _ => false
  end.

(** A numeric literal as the specification has it: an integer or a
    floating-point number. *)
Definition numeric_literal (c : constant) : bool :=
  match c with
  | CNum (VInt _) | CNum (VFloat _) => true
  | _ => false
  end.

(** A literal of one of the host's number types, [bool] and [complex]
    included. *)
Definition number_literal (c : constant) : bool :=
  match c with
  | CNum _ => true
  | _ => false
  end.

(** The closed set of the specification. *)
Definition in_closed_set : node -> bool := shaped numeric_literal.

(** The rational a finite double stands for. *)
Definition Q_of_float (x : float) : option Q :=
  match x with
  | S754_zero _ => Some 0%Q
  | S754_finite s m e =>
      Some (inject_Z (if s then Zneg m else Zpos m) * (2 # 1) ^ e)%Q
  | _ => None
  end.

Definition Q_of_value (v : value) : option Q :=
  match v with
  | VInt n => Some (inject_Z n)
  | VBool b => Some (inject_Z (Z.b2z b))
  | VFloat x => Q_of_float x
  | VComplex _ _ => None
  end.

Definition Q_is_integer (q : Q) : bool := Qeq_bool q (inject_Z (Qfloor q)).

(** The value of an arithmetic expression over the rationals, where it
    has one: no division or modulo by zero, integer exponents, and no
    zero raised to a negative power.  Modulo is floor modulo. *)
Fixpoint exact_value (t : node) : option Q :=
  match t with
  | Expression body => exact_value body
  | Constant (CNum (VInt n)) => Some (inject_Z n)
  | Constant (CNum (VFloat x)) => Q_of_float x
  | UnaryOp UAdd o => exact_value o
  | UnaryOp USub o => option_map Qopp (exact_value o)
  | BinOp l op r =>
      match exact_value l, exact_value r with
      | Some a, Some b =>
          match op with
          | Add => Some (a + b)%Q
          | Sub => Some (a - b)%Q
          | Mult => Some (a * b)%Q
          | Div => if Qeq_bool b 0 then None else Some (a / b)%Q
          | Mod =>
              if Qeq_bool b 0 then None
              else Some (a - b * inject_Z (Qfloor (a / b)))%Q
          | Pow =>
              if Q_is_integer b && negb (Qeq_bool a 0 && (Qfloor b <? 0))
              then Some (a ^ Qfloor b)%Q else None
          | _ => None
          end
      | _, _ => None
      end
  | _ => None
  end.

(** The value of an expression over the integers: integer literals under
    [+ - * % **] and the unary signs, with a non-zero modulus and a
    non-negative exponent. *)
Fixpoint integer_value (t : node) : option Z :=
  match t with
  | Expression body => integer_value body
  | Constant (CNum (VInt n)) => Some n
  | UnaryOp UAdd o => integer_value o
  | UnaryOp USub o => option_map Z.opp (integer_value o)
  | BinOp l op r =>
      match integer_value l, integer_value r with
      | Some a, Some b =>
          match op with
          | Add => Some (a + b)
          | Sub => Some (a - b)
          | Mult => Some (a * b)
          | Mod => if b =? 0 then None else Some (a mod b)
          | Pow => if 0 <=? b then Some (a ^ b) else None
          | _ => None
          end
      | _, _ => None
      end
  | _ => None
  end.

(** A number equal to zero. *)
Definition is_zero (v : value) : bool :=
  match v with
  | VInt n => n =? 0
  | VBool b => negb b
  | VFloat x => float_is_zero x
  | VComplex re im => float_is_zero re && float_is_zero im
  end.

Definition invalid_expression (cause : exception) : exception :=
  mk_exception ValueError ("Nevažeći izraz ili operator: " ++ exc_message cause).

(** The failure as the specification words it, in English. *)
Definition fails_in_English (r : outcome exception value) : Prop :=
  exists cause,
    r = Raise (mk_exception ValueError ("Invalid expression or operator: " ++ cause)).

(** A call that ends in a value or in an exception derived from
    [Exception]. *)
Definition ordinary {A} (c : outcome base_exception A) : Prop :=
  match c with
  | Return _ | Raise (Exc _) => True
  | Raise _ => False
  end.

(** [isinstance(b, Exception)] *)
Definition derives_from_Exception (b : base_exception) : bool :=
  match b with
  | Exc _ => true
  | _ => false
  end.

(** [b] came out of one of the calls into sympy. *)
Definition raised_by (sympy : Sympy.host) (b : base_exception) : Prop :=
  (exists s, Sympy.sympify sympy s = Raise b)
  \/ (exists l r, Sympy.free_symbols sympy l r = Raise b)
  \/ (exists l r, Sympy.difference_is_small sympy l r = Raise b)
  \/ (exists l r vars, Sympy.solve sympy l r vars = Raise b).

(** A sympy none of whose calls ends in a [BaseException] outside
    [Exception]. *)
Definition raises_only_Exception (sympy : Sympy.host) : Prop :=
  (forall s, ordinary (Sympy.sympify sympy s))
  /\ (forall l r, ordinary (Sympy.free_symbols sympy l r))
  /\ (forall l r, ordinary (Sympy.difference_is_small sympy l r))
  /\ (forall l r vars, ordinary (Sympy.solve sympy l r vars)).

(** [c in s] for a character. *)
Fixpoint occurs (c : ascii) (s : string) : bool :=
  match s with
  | EmptyString => false
  | String d rest => Ascii.eqb d c || occurs c rest
  end.

(** The node classes the walk tests for with [isinstance]. *)
Definition known_class (t : node) : bool :=
  match t with
  | Expression _ | Constant _ | BinOp _ _ _ | UnaryOp _ _ => true
  | _ => false
  end.

(** A double that is a number: a zero or a finite value. *)
Definition float_is_number (x : float) : bool :=
  match x with
  | S754_zero _ | S754_finite _ _ _ => true
  | _ => false
  end.

(** The product the word-problem heuristic prints: that of the first two
    integers written in [t], rendered; [None] when there are fewer than
    two integers or a conversion fails. *)
Definition first_two_product (host : StrHost) (t : string) : option string :=
  match numbers_in host t with
  | Return (a :: b :: _) =>
      match py_str host (VInt (a * b)) with
      | Return product => Some product
      | Raise _ => None
      end
  | _ => None
  end.

(** A file system that accepts every path. *)
Definition open_anything (path : string) : outcome exception unit := Return tt.

(** An immediate sub-node on which the walk can call itself. *)
Inductive sub_node : node -> node -> Prop :=
| sub_body body : sub_node body (Expression body)
| sub_left l op r : sub_node l (BinOp l op r)
| sub_right l op r : sub_node r (BinOp l op r)
| sub_operand op o : sub_node o (UnaryOp op o).

(** The height of a tree along the edges the walk follows. *)
Fixpoint walk_height (t : node) : nat :=
  match t with
  | Expression body => S (walk_height body)
  | BinOp l _ r => S (Nat.max (walk_height l) (walk_height r))
  | UnaryOp _ o => S (walk_height o)
  | _ => 1%nat
  end.

Section Walk.

Variable libm : Numerics.

(** The arguments of the recursive calls in the body of [safe_eval]. *)
Definition recursive_calls (t : node) : list node :=
  match t with
  | Expression body => [body]
  | BinOp l op r =>
      match ALLOWED_OPERATORS libm op with
      | Some _ => [l; r]
      | None => []
      end
  | UnaryOp op o =>
      match ALLOWED_OPERATORS libm op with
      | Some _ => [o]
      | None => []
      end
  | _ => []
  end.

(** [safe_eval] under a bound on the depth of nested calls; [None] when
    the bound is reached. *)
Fixpoint safe_eval_within (limit : nat) (node : node)
    : option (outcome exception value) :=
  match limit with
  | O => None
  | S limit =>
      match node with
      | Expression body => safe_eval_within limit body
      | Constant value =>
          match isinstance_Num value with
          | Some n => Some (Return n)
          | None =>
              match isinstance_int_float value with
              | Some v => Some (Return v)
              | None => Some (raise ValueError "Dozvoljeni su samo brojevi.")
              end
          end
      | BinOp node_left op node_right =>
          match ALLOWED_OPERATORS libm op with
          | None => Some (raise ValueError "Operator nije dozvoljen.")
          | Some f =>
              match safe_eval_within limit node_left with
              | None => None
              | Some (Raise e) => Some (Raise e)
              | Some (Return vl) =>
                  match safe_eval_within limit node_right with
                  | None => None
                  | Some (Raise e) => Some (Raise e)
                  | Some (Return vr) => Some (call2 f vl vr)
                  end
              end
          end
      | UnaryOp op node_operand =>
          match ALLOWED_OPERATORS libm op with
          | None => Some (raise ValueError "Operator nije dozvoljen.")
          | Some f =>
              match safe_eval_within limit node_operand with
              | None => None
              | Some (Raise e) => Some (Raise e)
              | Some (Return operand) => Some (call1 f operand)
              end
          end
      | _ => Some (raise ValueError "Nevažeći izraz.")
      end
  end.

(** The walk from [t] performs a division or a modulo whose right operand
    has evaluated to zero. *)
Inductive divides_by_zero : node -> Prop :=
| dz_here l op r vl vr :
    op = Div \/ op = Mod ->
    safe_eval libm l = Return vl ->
    safe_eval libm r = Return vr ->
    is_zero vr = true ->
    divides_by_zero (BinOp l op r)
| dz_body body : divides_by_zero body -> divides_by_zero (Expression body)
| dz_left l op r : divides_by_zero l -> divides_by_zero (BinOp l op r)
| dz_right l op r : divides_by_zero r -> divides_by_zero (BinOp l op r)
| dz_operand op o : divides_by_zero o -> divides_by_zero (UnaryOp op o).

(** The sentence of the specification on exact results, at one input:
    where the expression has a value over the rationals, [evaluate]
    returns a number equal to it. *)
Definition returns_exact_value (ast_parse : string -> outcome exception node)
    (s : string) : Prop :=
  forall t q,
    ast_parse (str_replace "^" "**" s) = Return t ->
    in_closed_set t = true ->
    exact_value t = Some q ->
    exists v q',
      evaluate_expression libm ast_parse s = Return v
      /\ Q_of_value v = Some q' /\ (q' == q)%Q.

End Walk.

(** * Results *)

(** ** The wrapper *)

Lemma bind_Return {E A B} (c : outcome E A) (k : A -> outcome E B) b :
  bind c k = Return b -> exists a, c = Return a /\ k a = Return b.
Proof.
  destruct c as [a|e]; simpl; intros H; [eauto | discriminate].
Qed.

Section WrapperFacts.

Variable libm : Numerics.
Variable ast_parse : string -> outcome exception node.

Lemma evaluate_expression_parsed s t :
  ast_parse (str_replace "^" "**" s) = Return t ->
  evaluate_expression libm ast_parse s =
  match safe_eval libm t with
  | Return v => Return v
  | Raise cause => Raise (invalid_expression cause)
  end.
Proof.
  intros H; unfold evaluate_expression; rewrite H; reflexivity.
Qed.

Lemma evaluate_expression_unparsed s cause :
  ast_parse (str_replace "^" "**" s) = Raise cause ->
  evaluate_expression libm ast_parse s = Raise (invalid_expression cause).
Proof.
  intros H; unfold evaluate_expression; rewrite H; reflexivity.
Qed.

Lemma evaluate_expression_value s t v :
  ast_parse (str_replace "^" "**" s) = Return t ->
  safe_eval libm t = Return v ->
  evaluate_expression libm ast_parse s = Return v.
Proof.
  intros Hp He; rewrite (evaluate_expression_parsed _ _ Hp), He; reflexivity.
Qed.

Lemma evaluate_expression_failure s t cause :
  ast_parse (str_replace "^" "**" s) = Return t ->
  safe_eval libm t = Raise cause ->
  evaluate_expression libm ast_parse s = Raise (invalid_expression cause).
Proof.
  intros Hp He; rewrite (evaluate_expression_parsed _ _ Hp), He; reflexivity.
Qed.

End WrapperFacts.

(** ** The walk rejects what it does not know *)

(** Closes a goal [exists e, c = Raise e] once [c] computes to a raise. *)
Ltac raises := simpl; unfold raise; eauto.

(** Induction along the edges the walk follows; a node of any other
    class is a leaf. *)
Lemma walk_ind (P : node -> Prop) :
  (forall body, P body -> P (Expression body)) ->
  (forall c, P (Constant c)) ->
  (forall l op r, P l -> P r -> P (BinOp l op r)) ->
  (forall op o, P o -> P (UnaryOp op o)) ->
  (forall t, known_class t = false -> P t) ->
  forall t, P t.
Proof.
  intros HE HC HB HU HO.
  fix IH 1. intros t.
  destruct t eqn:E;
    first [ apply HE, IH | apply HC | apply HB; apply IH | apply HU, IH
          | apply HO; reflexivity ].
Qed.

Lemma unknown_class_raises libm t :
  known_class t = false ->
  safe_eval libm t = raise ValueError "Nevažeći izraz.".
Proof. destruct t; intros H; try discriminate H; reflexivity. Qed.

Section WalkFacts.

Variable libm : Numerics.

Lemma safe_eval_BinOp_left l op r e :
  safe_eval libm l = Raise e ->
  exists e', safe_eval libm (BinOp l op r) = Raise e'.
Proof.
  intros H; simpl.
  destruct (ALLOWED_OPERATORS libm op); [rewrite H | ]; raises.
Qed.

Lemma safe_eval_BinOp_right l op r e :
  safe_eval libm r = Raise e ->
  exists e', safe_eval libm (BinOp l op r) = Raise e'.
Proof.
  intros H; simpl.
  destruct (ALLOWED_OPERATORS libm op); [ | raises].
  destruct (safe_eval libm l); simpl; [rewrite H | ]; raises.
Qed.

Lemma safe_eval_UnaryOp_operand op o e :
  safe_eval libm o = Raise e ->
  exists e', safe_eval libm (UnaryOp op o) = Raise e'.
Proof.
  intros H; simpl.
  destruct (ALLOWED_OPERATORS libm op); [rewrite H | ]; raises.
Qed.

Lemma safe_eval_BinOp_arity l op r :
  binary_allowed op = false ->
  exists e, safe_eval libm (BinOp l op r) = Raise e.
Proof.
  intros H; simpl.
  destruct op; try discriminate H; try raises;
    destruct (safe_eval libm l); try raises;
    destruct (safe_eval libm r); raises.
Qed.

Lemma safe_eval_UnaryOp_arity op o :
  unary_allowed op = false ->
  exists e, safe_eval libm (UnaryOp op o) = Raise e.
Proof.
  intros H; simpl.
  destruct op; try discriminate H; try raises;
    destruct (safe_eval libm o); raises.
Qed.

Lemma safe_eval_literal c :
  safe_eval libm (Constant c) =
  match c with
  | CNum v => Return v
  | _ => raise ValueError "Dozvoljeni su samo brojevi."
  end.
Proof.
  destruct c as [[n|b|x|re im]|s|s| |]; reflexivity.
Qed.

(** A tree with a node that is no number literal and no allowed operation
    makes the walk fail. *)
Lemma unshaped_raises t :
  shaped number_literal t = false ->
  exists e, safe_eval libm t = Raise e.
Proof.
  induction t as [body IH | c | l op r IHl IHr | op o IH | t Ht] using walk_ind;
    simpl shaped; intros H.
  - apply IH; assumption.
  - rewrite safe_eval_literal. destruct c; try discriminate H; raises.
  - apply andb_false_iff in H as [H|H];
      [apply andb_false_iff in H as [H|H] | ].
    + apply safe_eval_BinOp_arity; assumption.
    + destruct (IHl H) as [e He]. eapply safe_eval_BinOp_left; eassumption.
    + destruct (IHr H) as [e He]. eapply safe_eval_BinOp_right; eassumption.
  - apply andb_false_iff in H as [H|H].
    + apply safe_eval_UnaryOp_arity; assumption.
    + destruct (IH H) as [e He].
      eapply safe_eval_UnaryOp_operand; eassumption.
  - rewrite (unknown_class_raises _ _ Ht). raises.
Qed.

(** What the walk returns is a number read from a literal or computed by
    an allowed operator: the tree was made of those only. *)
Lemma safe_eval_Return_shaped t v :
  safe_eval libm t = Return v -> shaped number_literal t = true.
Proof.
  intros H. destruct (shaped number_literal t) eqn:E; [reflexivity | ].
  destruct (unshaped_raises t E) as [e He]. congruence.
Qed.

End WalkFacts.

(** C1.  The specification: an input whose tree has a node outside the
    closed set (numeric literal, unary sign, the six binary operators,
    parentheses) makes [evaluate] fail, never return a number.  The code:
    a tree with a node other than a number literal, an allowed unary or
    binary operation or the wrapper gives the uniform failure, whatever
    the parser and the C library, and so do [x+1], [__import__('os')],
    [[1,2,3]] and [1 if True else 2]; but a number literal is any number
    of the host, and the input [True+1], whose left operand is the
    constant [True], a node outside the closed set, returns the
    number 2. *)
Theorem allow_list_boundary :
  (forall libm ast_parse s t,
     ast_parse (str_replace "^" "**" s) = Return t ->
     shaped number_literal t = false ->
     exists cause,
       safe_eval libm t = Raise cause
       /\ evaluate_expression libm ast_parse s = Raise (invalid_expression cause))
  /\ (forall libm s,
        In s ["x+1"; "__import__('os')"; "[1,2,3]"; "1 if True else 2"] ->
        evaluate_expression libm Parser.py_parse s
        = Raise (invalid_expression (mk_exception ValueError "Nevažeći izraz.")))
  /\ (exists t,
        Parser.py_parse (str_replace "^" "**" "True+1") = Return t
        /\ in_closed_set t = false
        /\ forall libm,
             evaluate_expression libm Parser.py_parse "True+1" = Return (VInt 2)).
Proof.
  split; [ | split].
  - intros libm ast_parse s t Hp Hs.
    destruct (unshaped_raises libm t Hs) as [cause Hc].
    exists cause; split; [assumption | ].
    eapply evaluate_expression_failure; eassumption.
  - intros libm s [<- | [<- | [<- | [<- | []]]]]; reflexivity.
  - eexists; split; [vm_compute; reflexivity | ].
    split; [reflexivity | intros libm; reflexivity].
Qed.

Lemma allow_list_boundary_witness :
  exists cause,
    safe_eval Reference.numerics
      (Expression (Call (Name "__import__") [Constant (CStr "os")]))
    = Raise cause
    /\ evaluate_expression Reference.numerics Parser.py_parse "__import__('os')"
       = Raise (invalid_expression cause).
Proof.
  apply (proj1 allow_list_boundary Reference.numerics Parser.py_parse
           "__import__('os')").
  - vm_compute; reflexivity.
  - reflexivity.
Defined.

(** C2.  The specification: a literal is accepted if and only if it is an
    integer or a float; a string, boolean, complex or collection literal
    fails.  The code: the literal node accepts every number of the host;
    the input [True] evaluates to [True] and [1j] to a complex, because a
    [bool] passes [isinstance(_, (int, float))] and a complex constant is
    an [ast.Num].  Strings, bytes, [None] and [...] are refused with
    "Dozvoljeni su samo brojevi." *)
Theorem literal_check_admits_bool_and_complex :
  (forall libm, evaluate_expression libm Parser.py_parse "True" = Return (VBool true))
  /\ (forall libm,
        exists re im,
          evaluate_expression libm Parser.py_parse "1j" = Return (VComplex re im))
  /\ (forall libm,
        evaluate_expression libm Parser.py_parse "'a'" =
        Raise (invalid_expression (mk_exception ValueError "Dozvoljeni su samo brojevi.")))
  /\ (forall libm c,
        safe_eval libm (Constant c) =
        match c with
        | CNum v => Return v
        | _ => raise ValueError "Dozvoljeni su samo brojevi."
        end).
Proof.
  split; [intros; reflexivity | ].
  split; [intros; do 2 eexists; vm_compute; reflexivity | ].
  split; [intros; reflexivity | ].
  intros; apply safe_eval_literal.
Qed.

(** ** The caret *)

Lemma string_app_assoc (a b c : string) : a ++ (b ++ c) = (a ++ b) ++ c.
Proof.
  induction a as [|d a IH]; simpl; [reflexivity | now rewrite IH].
Qed.

Lemma str_replace_app old new a b :
  str_replace old new (a ++ b) = str_replace old new a ++ str_replace old new b.
Proof.
  induction a as [|c a IH]; simpl; [reflexivity | ].
  rewrite IH. destruct (Ascii.eqb c old); simpl; [ | reflexivity].
  apply string_app_assoc.
Qed.

Lemma str_replace_absent old new s :
  occurs old s = false -> str_replace old new s = s.
Proof.
  induction s as [|c s IH]; simpl; [reflexivity | ].
  intros H. apply orb_false_iff in H as [Hc Hs].
  rewrite Hc, (IH Hs). reflexivity.
Qed.

(** Replacing twice is replacing once, when the replacement does not
    contain the replaced character. *)
Lemma str_replace_idempotent old new s :
  occurs old new = false ->
  str_replace old new (str_replace old new s) = str_replace old new s.
Proof.
  intros Hnew. induction s as [|c s IH]; simpl; [reflexivity | ].
  destruct (Ascii.eqb c old) eqn:E.
  - rewrite str_replace_app, IH, (str_replace_absent _ _ _ Hnew). reflexivity.
  - simpl. rewrite E, IH. reflexivity.
Qed.

(** C6.  [evaluate(s)] is [evaluate] of [s] with each caret replaced by
    the power operator, for every parser and C library; and both [2^3] and
    [2**3] give 8. *)
Theorem caret_is_power :
  (forall libm ast_parse s,
     evaluate_expression libm ast_parse s =
     evaluate_expression libm ast_parse (str_replace "^" "**" s))
  /\ (forall libm, evaluate_expression libm Parser.py_parse "2^3" = Return (VInt 8))
  /\ (forall libm, evaluate_expression libm Parser.py_parse "2**3" = Return (VInt 8)).
Proof.
  split; [ | split; intros; reflexivity].
  intros libm ast_parse s. unfold evaluate_expression.
  rewrite str_replace_idempotent; reflexivity.
Qed.

(** ** Integer expressions *)

Section IntegerFacts.

Variable libm : Numerics.

Lemma safe_eval_BinOp_values l op r vl vr f :
  ALLOWED_OPERATORS libm op = Some f ->
  safe_eval libm l = Return vl ->
  safe_eval libm r = Return vr ->
  safe_eval libm (BinOp l op r) = call2 f vl vr.
Proof.
  intros Hf Hl Hr; simpl. rewrite Hf, Hl; simpl. rewrite Hr; reflexivity.
Qed.

Lemma safe_eval_UnaryOp_value op o v f :
  ALLOWED_OPERATORS libm op = Some f ->
  safe_eval libm o = Return v ->
  safe_eval libm (UnaryOp op o) = call1 f v.
Proof.
  intros Hf Ho; simpl. rewrite Hf, Ho; reflexivity.
Qed.

(** On an integer expression the walk computes the integer value. *)
Lemma integer_value_computed t z :
  integer_value t = Some z -> safe_eval libm t = Return (VInt z).
Proof.
  revert z.
  induction t as [body IH | c | l op r IHl IHr | op o IH | t Ht] using walk_ind;
    intros z H; simpl in H.
  - apply IH; assumption.
  - destruct c as [[n|b|x|re im]|s|s| |]; try discriminate H.
    injection H as <-. reflexivity.
  - destruct (integer_value l) as [a|]; [ | discriminate H].
    destruct (integer_value r) as [b|]; [ | discriminate H].
    specialize (IHl a eq_refl). specialize (IHr b eq_refl).
    destruct op; try discriminate H;
      erewrite safe_eval_BinOp_values by (try reflexivity; eassumption);
      cbv [call2 op_add op_sub op_mul op_mod op_pow numeric_binop int_like].
    + injection H as <-; reflexivity.
    + injection H as <-; reflexivity.
    + injection H as <-; reflexivity.
    + destruct (b =? 0); [discriminate H | injection H as <-; reflexivity].
    + destruct (0 <=? b); [injection H as <-; reflexivity | discriminate H].
  - destruct op; try discriminate H.
    + erewrite safe_eval_UnaryOp_value by (try reflexivity; apply IH; eassumption).
      reflexivity.
    + destruct (integer_value o) as [a|]; [ | discriminate H].
      injection H as <-.
      erewrite safe_eval_UnaryOp_value by (try reflexivity; apply IH; reflexivity).
      reflexivity.
  - destruct t; try discriminate Ht; discriminate H.
Qed.

End IntegerFacts.

(** An integer expression is an arithmetic expression of the closed
    set. *)
Lemma integer_value_closed t z :
  integer_value t = Some z -> in_closed_set t = true.
Proof.
  revert z. unfold in_closed_set.
  induction t as [body IH | c | l op r IHl IHr | op o IH | t Ht] using walk_ind;
    intros z H; simpl in H; simpl.
  - eapply IH; eassumption.
  - destruct c as [[n|b|x|re im]|s|s| |]; try discriminate H; reflexivity.
  - destruct (integer_value l) as [a|]; [ | discriminate H].
    destruct (integer_value r) as [b|]; [ | discriminate H].
    rewrite (IHl a eq_refl), (IHr b eq_refl).
    destruct op; try discriminate H; reflexivity.
  - destruct op; try discriminate H; simpl.
    + eapply IH; eassumption.
    + destruct (integer_value o) as [a|]; [ | discriminate H].
      eapply IH; reflexivity.
  - destruct t; try discriminate Ht; discriminate H.
Qed.

(** The integer value is the value over the rationals. *)
Lemma integer_value_exact t z :
  integer_value t = Some z ->
  exists q, exact_value t = Some q /\ (q == inject_Z z)%Q.
Proof.
  revert z.
  induction t as [body IH | c | l op r IHl IHr | op o IH | t Ht] using walk_ind;
    intros z H; simpl in H.
  - apply IH; assumption.
  - destruct c as [[n|b|x|re im]|s|s| |]; try discriminate H.
    injection H as <-. exists (inject_Z n). split; reflexivity.
  - destruct (integer_value l) as [a|]; [ | discriminate H].
    destruct (integer_value r) as [b|]; [ | discriminate H].
    destruct (IHl a eq_refl) as (qa & Ea & Ha).
    destruct (IHr b eq_refl) as (qb & Eb & Hb).
    cbn [exact_value]. rewrite Ea, Eb.
    destruct op; try discriminate H.
    + injection H as <-. eexists; split; [reflexivity | ].
      rewrite Ha, Hb, inject_Z_plus. reflexivity.
    + injection H as <-. eexists; split; [reflexivity | ].
      rewrite Ha, Hb. unfold Z.sub, Qminus.
      rewrite inject_Z_plus, inject_Z_opp. reflexivity.
    + injection H as <-. eexists; split; [reflexivity | ].
      rewrite Ha, Hb, inject_Z_mult. reflexivity.
    + destruct (b =? 0) eqn:Eb0; [discriminate H | injection H as <-].
      apply Z.eqb_neq in Eb0.
      assert (Hnz : Qeq_bool qb 0 = false).
      { destruct (Qeq_bool qb 0) eqn:E; [ | reflexivity].
        apply Qeq_bool_eq in E. rewrite Hb in E.
        exfalso; apply Eb0. unfold Qeq in E; simpl in E. lia. }
      rewrite Hnz. eexists; split; [reflexivity | ].
      assert (Hf : Qfloor (qa / qb) = a / b).
      { rewrite Zdiv_Qdiv. apply Qfloor_comp. rewrite Ha, Hb. reflexivity. }
      rewrite Hf, Ha, Hb, Z.mod_eq by assumption.
      unfold Z.sub, Qminus.
      rewrite inject_Z_plus, inject_Z_opp, inject_Z_mult. reflexivity.
    + destruct (0 <=? b) eqn:Eb0; [injection H as <- | discriminate H].
      apply Z.leb_le in Eb0.
      assert (Hf : Qfloor qb = b).
      { rewrite (Qfloor_comp _ _ Hb). apply Qfloor_Z. }
      assert (Hi : Q_is_integer qb = true).
      { unfold Q_is_integer. rewrite Hf. apply Qeq_eq_bool. assumption. }
      rewrite Hi, Hf.
      replace (b <? 0) with false by (symmetry; apply Z.ltb_ge; assumption).
      rewrite andb_false_r. cbn [negb andb].
      eexists; split; [reflexivity | ].
      rewrite Ha. symmetry. apply Zpower_Qpower. assumption.
  - destruct op; try discriminate H.
    + cbn [exact_value]. apply IH; assumption.
    + destruct (integer_value o) as [a|]; [ | discriminate H].
      injection H as <-.
      destruct (IH a eq_refl) as (qa & Ea & Ha).
      cbn [exact_value]. rewrite Ea. eexists; split; [reflexivity | ].
      rewrite Ha, inject_Z_opp. reflexivity.
  - destruct t; try discriminate Ht; discriminate H.
Qed.

(** C3, as amended.  The specification promises the mathematically exact
    value for every arithmetic expression; division and float literals give a
    binary64 number, or a failure when the quotient is out of range.  What
    holds: an expression of integer literals under [+ - * % **] and the
    unary signs, with every modulus non-zero and every exponent
    non-negative, evaluates to exactly its integer value, which is its
    value over the rationals; and [(5 + 3) * 2 - 4**2] gives 0. *)
Theorem integer_expression_is_exact :
  (forall libm ast_parse s t z,
     ast_parse (str_replace "^" "**" s) = Return t ->
     integer_value t = Some z ->
     evaluate_expression libm ast_parse s = Return (VInt z)
     /\ in_closed_set t = true
     /\ exists q, exact_value t = Some q /\ (q == inject_Z z)%Q)
  /\ (forall libm,
        evaluate_expression libm Parser.py_parse "(5 + 3) * 2 - 4**2"
        = Return (VInt 0)).
Proof.
  split; [ | intros; reflexivity].
  intros libm ast_parse s t z Hp Hz. split; [ | split].
  - eapply evaluate_expression_value; [eassumption | ].
    apply integer_value_computed; assumption.
  - eapply integer_value_closed; eassumption.
  - apply integer_value_exact; assumption.
Qed.

Lemma integer_expression_is_exact_witness :
  evaluate_expression Reference.numerics Parser.py_parse "7 % 3 - 2^10"
  = Return (VInt (-1023)).
Proof.
  refine (proj1 (proj1 integer_expression_is_exact Reference.numerics
                   Parser.py_parse "7 % 3 - 2^10" _ (-1023) _ _)).
  - vm_compute; reflexivity.
  - reflexivity.
Defined.

(** C3, the counterexample.  [1/3] is a well-formed arithmetic string with
    no division by zero; its exact value is one third, and [evaluate]
    returns the double 6004799503160661 * 2^-54, which is not.  And
    [10**400/1], whose exact value is an integer, returns no number at
    all: the quotient is too large for a float. *)
Lemma one_third_is_rounded :
  ~ returns_exact_value Reference.numerics Parser.py_parse "1/3"
  /\ ~ returns_exact_value Reference.numerics Parser.py_parse "10**400/1".
Proof.
  split; intros H.
  - destruct (H (Expression (BinOp (Constant (CNum (VInt 1))) Div
                               (Constant (CNum (VInt 3))))) (1 # 3)%Q)
      as (v & q' & Hv & Hq & Heq); try reflexivity.
    vm_compute in Hv. injection Hv as <-.
    vm_compute in Hq. injection Hq as <-.
    vm_compute in Heq. discriminate Heq.
  - destruct (H (Expression
                   (BinOp (BinOp (Constant (CNum (VInt 10))) Pow
                             (Constant (CNum (VInt 400))))
                      Div (Constant (CNum (VInt 1)))))
                (inject_Z (10 ^ 400) / inject_Z 1)%Q)
      as (v & q' & Hv & _); try (vm_compute; reflexivity).
    vm_compute in Hv. discriminate Hv.
Qed.

(** ** Division and modulo by zero *)

Section ZeroFacts.

Variable libm : Numerics.

Lemma float_of_int_zero : float_of_int 0 = Return (S754_zero false).
Proof. reflexivity. Qed.

Lemma is_zero_cases v :
  is_zero v = true ->
  v = VInt 0 \/ v = VBool false
  \/ (exists s, v = VFloat (S754_zero s))
  \/ (exists s s', v = VComplex (S754_zero s) (S754_zero s')).
Proof.
  destruct v as [n|[|]|x|re im]; simpl; intros H; try discriminate H.
  - apply Z.eqb_eq in H; subst; auto.
  - auto.
  - destruct x; try discriminate H; eauto.
  - destruct re; try discriminate H; destruct im; try discriminate H; eauto 6.
Qed.

(** Subgoals of the form [exists e, c = Raise e] where [c] converts an
    operand before it tests the divisor. *)
Ltac conversions :=
  cbn [Z.b2z];
  repeat match goal with
         | |- context [float_of_int ?n] =>
             lazymatch n with
             | 0 => rewrite float_of_int_zero
             | _ => destruct (float_of_int n)
             end
         | _ => progress simpl
         end;
  raises.

Lemma op_truediv_zero a b :
  is_zero b = true -> exists e, op_truediv libm a b = Raise e.
Proof.
  intros H.
  destruct (is_zero_cases b H) as [-> | [-> | [[s ->] | (s & s' & ->)]]];
    destruct a as [n|c|x|re im];
    unfold op_truediv, numeric_binop, to_complex, to_float, int_true_divide;
    conversions.
Qed.

Lemma op_mod_zero a b :
  is_zero b = true -> exists e, op_mod libm a b = Raise e.
Proof.
  intros H.
  destruct (is_zero_cases b H) as [-> | [-> | [[s ->] | (s & s' & ->)]]];
    destruct a as [n|c|x|re im];
    unfold op_mod, to_float; conversions.
Qed.

Lemma divides_by_zero_raises t :
  divides_by_zero libm t -> exists e, safe_eval libm t = Raise e.
Proof.
  induction 1 as [l op r vl vr Hop Hl Hr Hz | body _ [e He] | l op r _ [e He]
                 | l op r _ [e He] | op o _ [e He]].
  - destruct Hop as [-> | ->];
      erewrite safe_eval_BinOp_values by (try reflexivity; eassumption); simpl.
    + apply op_truediv_zero; assumption.
    + apply op_mod_zero; assumption.
  - simpl; eauto.
  - eapply safe_eval_BinOp_left; eassumption.
  - eapply safe_eval_BinOp_right; eassumption.
  - eapply safe_eval_UnaryOp_operand; eassumption.
Qed.

End ZeroFacts.

(** C4.  An expression whose evaluation divides or takes a modulo by zero
    gives the uniform failure: no number, hence no infinity and no NaN,
    comes back.  This holds for an integer, boolean, float or complex
    zero, for every parser and C library; [5/0] fails with the cause
    "division by zero". *)
Theorem division_by_zero_fails :
  (forall libm ast_parse s t,
     ast_parse (str_replace "^" "**" s) = Return t ->
     divides_by_zero libm t ->
     exists cause,
       safe_eval libm t = Raise cause
       /\ evaluate_expression libm ast_parse s = Raise (invalid_expression cause))
  /\ (forall libm,
        evaluate_expression libm Parser.py_parse "5/0"
        = Raise (invalid_expression
                   (mk_exception ZeroDivisionError "division by zero"))).
Proof.
  split; [ | intros; reflexivity].
  intros libm ast_parse s t Hp Hz.
  destruct (divides_by_zero_raises libm t Hz) as [cause Hc].
  exists cause; split; [assumption | ].
  eapply evaluate_expression_failure; eassumption.
Qed.

Lemma division_by_zero_fails_witness :
  exists cause,
    safe_eval Reference.numerics
      (Expression (BinOp (Constant (CNum (VInt 5))) Mod
                     (UnaryOp USub (Constant (CNum (VFloat (S754_zero false)))))))
    = Raise cause
    /\ evaluate_expression Reference.numerics Parser.py_parse "5 % -0.0"
       = Raise (invalid_expression cause).
Proof.
  apply (proj1 division_by_zero_fails Reference.numerics Parser.py_parse "5 % -0.0").
  - vm_compute; reflexivity.
  - apply dz_body. eapply dz_here; try reflexivity. right; reflexivity.
Defined.

(** ** Failures of the wrapper *)

(** C5, as amended.  The specification gives the failure the English form
    "Invalid expression or operator: <cause>"; the program speaks Serbian.
    What holds: whatever fails inside [evaluate_expression], in the parser
    or in the walk (a syntax error, a refused node, a zero division, a
    call with the wrong number of arguments), comes out as one
    [ValueError] whose message is "Nevažeći izraz ili operator: " followed
    by the message of the cause, and nothing else comes out as a failure.
    The caller, the form in mode "Izraz", turns that failure into text and
    goes on.  The empty input and [(((] fail in this way. *)
Theorem failures_are_uniform :
  (forall libm ast_parse s,
     (forall cause,
        ast_parse (str_replace "^" "**" s) = Raise cause ->
        evaluate_expression libm ast_parse s
        = Raise (mk_exception ValueError
                   ("Nevažeći izraz ili operator: " ++ exc_message cause)))
     /\ (forall t cause,
           ast_parse (str_replace "^" "**" s) = Return t ->
           safe_eval libm t = Raise cause ->
           evaluate_expression libm ast_parse s
           = Raise (mk_exception ValueError
                      ("Nevažeći izraz ili operator: " ++ exc_message cause)))
     /\ (forall e,
           evaluate_expression libm ast_parse s = Raise e ->
           exists cause,
             e = mk_exception ValueError
                   ("Nevažeći izraz ili operator: " ++ exc_message cause)
             /\ (ast_parse (str_replace "^" "**" s) = Raise cause
                 \/ exists t,
                      ast_parse (str_replace "^" "**" s) = Return t
                      /\ safe_eval libm t = Raise cause)))
  /\ (forall libm ast_parse strings sympy ts self,
        SmartCalcApp.mode_var self = "Izraz" ->
        exists self',
          SmartCalcApp.solve libm ast_parse strings sympy ts self = Return self')
  /\ (forall libm l r vl vr,
        safe_eval libm l = Return vl ->
        safe_eval libm r = Return vr ->
        safe_eval libm (BinOp l USub r)
        = raise TypeError "_operator.neg() takes exactly one argument (2 given)")
  /\ (forall libm s,
        In s [""; "((("] ->
        exists cause,
          exc_class cause = SyntaxError
          /\ evaluate_expression libm Parser.py_parse s
             = Raise (mk_exception ValueError
                        ("Nevažeći izraz ili operator: " ++ exc_message cause))).
Proof.
  split; [intros libm ast_parse s; split; [ | split] | split; [ | split]].
  - intros cause H. apply evaluate_expression_unparsed; assumption.
  - intros t cause Hp He. eapply evaluate_expression_failure; eassumption.
  - intros e H. unfold evaluate_expression in H.
    destruct (ast_parse (str_replace "^" "**" s)) as [t|cause] eqn:Hp; simpl in H.
    + destruct (safe_eval libm t) as [v|cause] eqn:He; [discriminate H | ].
      injection H as <-. exists cause; split; [reflexivity | eauto].
    + injection H as <-. exists cause; split; [reflexivity | auto].
  - intros libm ast_parse strings sympy ts self Hm. unfold SmartCalcApp.solve.
    rewrite Hm. simpl String.eqb.
    destruct (is_empty _); [eauto | ].
    destruct (bind (evaluate_expression _ _ _) _); simpl; eauto.
  - intros libm l r vl vr Hl Hr.
    erewrite safe_eval_BinOp_values by (try reflexivity; eassumption).
    reflexivity.
  - intros libm s [<- | [<- | []]];
      (eexists; split; [ | reflexivity]; reflexivity).
Qed.

Lemma failures_are_uniform_witness :
  (exists cause,
     Parser.py_parse (str_replace "^" "**" "5 ^") = Raise cause
     /\ evaluate_expression Reference.numerics Parser.py_parse "5 ^"
        = Raise (mk_exception ValueError
                   ("Nevažeći izraz ili operator: " ++ exc_message cause)))
  /\ evaluate_expression Reference.numerics Parser.py_parse "2 @ 3"
     = Raise (mk_exception ValueError
                "Nevažeći izraz ili operator: Operator nije dozvoljen.")
  /\ exists self',
       SmartCalcApp.solve Reference.numerics Parser.py_parse Reference.strings
         Reference.sympy "2025-03-01 12:00:00"
         (SmartCalcApp.set_input_text "(((" SmartCalcApp.init)
       = Return self'.
Proof.
  destruct failures_are_uniform as (Hwrap & Hcaller & _).
  split; [ | split].
  - eexists; split; [vm_compute; reflexivity | ].
    apply (proj1 (Hwrap Reference.numerics Parser.py_parse "5 ^")).
    vm_compute; reflexivity.
  - apply (proj1 (proj2 (Hwrap Reference.numerics Parser.py_parse "2 @ 3"))
             (Expression (BinOp (Constant (CNum (VInt 2))) MatMult
                            (Constant (CNum (VInt 3)))))
             (mk_exception ValueError "Operator nije dozvoljen.")).
    + vm_compute; reflexivity.
    + reflexivity.
  - apply Hcaller. reflexivity.
Defined.

(** C5, the counterexample.  [5/0] fails, and the message of the failure
    is "Nevažeći izraz ili operator: division by zero": it does not have
    the English form. *)
Lemma failure_message_is_Serbian :
  evaluate_expression Reference.numerics Parser.py_parse "5/0"
  = Raise (mk_exception ValueError "Nevažeći izraz ili operator: division by zero")
  /\ ~ fails_in_English (evaluate_expression Reference.numerics Parser.py_parse "5/0").
Proof.
  split; [reflexivity | ].
  intros [cause H]. vm_compute in H. discriminate H.
Qed.

(** ** Integer operands *)

(** C7.  With integer operands, addition, subtraction, multiplication,
    modulo by a non-zero integer and power with a non-negative exponent
    return an integer; true division by a non-zero integer returns a
    float, or fails when the quotient is beyond the doubles. *)
Theorem integer_operands_stay_integer libm l r a b :
  safe_eval libm l = Return (VInt a) ->
  safe_eval libm r = Return (VInt b) ->
  safe_eval libm (BinOp l Add r) = Return (VInt (a + b))
  /\ safe_eval libm (BinOp l Sub r) = Return (VInt (a - b))
  /\ safe_eval libm (BinOp l Mult r) = Return (VInt (a * b))
  /\ (b <> 0 -> safe_eval libm (BinOp l Mod r) = Return (VInt (a mod b)))
  /\ (0 <= b -> safe_eval libm (BinOp l Pow r) = Return (VInt (a ^ b)))
  /\ (b <> 0 ->
      (exists x, safe_eval libm (BinOp l Div r) = Return (VFloat x))
      \/ safe_eval libm (BinOp l Div r)
         = raise OverflowError "integer division result too large for a float").
Proof.
  intros Hl Hr.
  repeat split;
    try (erewrite safe_eval_BinOp_values by (try reflexivity; eassumption);
         reflexivity).
  - intros Hb.
    erewrite safe_eval_BinOp_values by (try reflexivity; eassumption).
    cbv [call2 op_mod int_like].
    apply Z.eqb_neq in Hb; rewrite Hb; reflexivity.
  - intros Hb.
    erewrite safe_eval_BinOp_values by (try reflexivity; eassumption).
    cbv [call2 op_pow numeric_binop int_like].
    apply Z.leb_le in Hb; rewrite Hb; reflexivity.
  - intros Hb.
    erewrite safe_eval_BinOp_values by (try reflexivity; eassumption).
    cbv [call2 op_truediv numeric_binop int_like int_true_divide].
    apply Z.eqb_neq in Hb; rewrite Hb.
    destruct (a =? 0); [left; eauto | ].
    destruct (SFdiv_core_binary _ _ _ _ _ _) as [[q e] loc].
    destruct (binary_round_aux _ _ _ _ _ _); eauto.
Qed.

Lemma integer_operands_stay_integer_witness :
  safe_eval Reference.numerics
    (BinOp (Constant (CNum (VInt 7))) Mod (Constant (CNum (VInt 2))))
  = Return (VInt 1)
  /\ safe_eval Reference.numerics
       (BinOp (Constant (CNum (VInt 7))) Pow (Constant (CNum (VInt 2))))
     = Return (VInt 49)
  /\ exists x,
       safe_eval Reference.numerics
         (BinOp (Constant (CNum (VInt 7))) Div (Constant (CNum (VInt 2))))
       = Return (VFloat x).
Proof.
  destruct (integer_operands_stay_integer Reference.numerics
              (Constant (CNum (VInt 7))) (Constant (CNum (VInt 2))) 7 2
              eq_refl eq_refl) as (_ & _ & _ & Hmod & Hpow & Hdiv).
  split; [apply Hmod; discriminate | ].
  split; [apply Hpow; discriminate | ].
  destruct Hdiv as [Hx | Hx]; [discriminate | exact Hx | discriminate Hx].
Defined.

(** ** The collaborators *)

Lemma occurs_app c a b : occurs c (a ++ b) = occurs c a || occurs c b.
Proof.
  induction a as [|d a IH]; simpl; [reflexivity | ].
  rewrite IH. apply orb_assoc.
Qed.

Lemma contains_char c s : contains (String c EmptyString) s = occurs c s.
Proof.
  induction s as [|d s IH]; [reflexivity | ].
  cbn [contains occurs String.prefix]. rewrite IH.
  destruct (ascii_dec c d) as [-> | Hne].
  - rewrite Ascii.eqb_refl. destruct s; reflexivity.
  - assert (E : Ascii.eqb d c = false)
      by (apply Ascii.eqb_neq; congruence).
    rewrite E. reflexivity.
Qed.

Lemma occurs_str_replace c old new s :
  Ascii.eqb old c = false ->
  occurs c new = false ->
  occurs c (str_replace old new s) = occurs c s.
Proof.
  intros Hc Hnew. induction s as [|a s IH]; simpl; [reflexivity | ].
  destruct (Ascii.eqb a old) eqn:E.
  - apply Ascii.eqb_eq in E. subst a.
    rewrite occurs_app, Hnew, IH, Hc. reflexivity.
  - simpl. rewrite IH. reflexivity.
Qed.

Lemma ordinary_bind {A B} (c : outcome base_exception A)
    (k : A -> outcome base_exception B) :
  ordinary c -> (forall a, ordinary (k a)) -> ordinary (bind c k).
Proof.
  destruct c as [a|[e| | | |name]]; simpl; auto.
Qed.

Lemma try_except_Exception_returns {A} (c : outcome base_exception A) h :
  ordinary c ->
  (forall e, exists a, h e = Return a) ->
  exists a, try_except_Exception c h = Return a.
Proof.
  destruct c as [a|[e| | | |name]]; simpl; intros Hc Hh; eauto; contradiction.
Qed.

Lemma solve_text_problem_returns strings text :
  exists answer, solve_text_problem strings text = Return answer.
Proof.
  unfold solve_text_problem.
  repeat match goal with
         | |- context [match ?x with Some _ => _ | None => _ end] => destruct x
         end; eauto.
Qed.

Lemma bind_Raise {E A B} (c : outcome E A) (k : A -> outcome E B) e :
  bind c k = Raise e -> c = Raise e \/ exists a, c = Return a /\ k a = Raise e.
Proof.
  destruct c as [a|e']; simpl; intros H; [eauto | left; congruence].
Qed.

Lemma try_except_Exception_Raise {A} (c : outcome base_exception A) h b :
  (forall e, exists a, h e = Return a) ->
  try_except_Exception c h = Raise b ->
  c = Raise b /\ derives_from_Exception b = false.
Proof.
  intros Hh. destruct c as [a|[e| | | |name]]; simpl; intros H;
    try discriminate H; try (injection H as <-; auto).
  destruct (Hh e) as [a Ha]. congruence.
Qed.

Lemma solve_equation_outcome sympy equation_str b :
  solve_equation sympy equation_str = Raise b ->
  derives_from_Exception b = false /\ raised_by sympy b.
Proof.
  unfold solve_equation. intros H.
  apply try_except_Exception_Raise in H as [H Hb]; [ | eauto].
  split; [exact Hb | ]. unfold raised_by.
  apply bind_Raise in H as [H | (u & _ & H)].
  { destruct (negb _); [ | discriminate H].
    injection H as <-. discriminate Hb. }
  destruct (split_once _ _) as [left_s right_s].
  apply bind_Raise in H as [H | (l & _ & H)]; [eauto | ].
  apply bind_Raise in H as [H | (r & _ & H)]; [eauto | ].
  apply bind_Raise in H as [H | (vars & _ & H)]; [eauto 6 | ].
  destruct vars.
  - apply bind_Raise in H as [H | (small & _ & H)]; [eauto 7 | ].
    destruct small; discriminate H.
  - apply bind_Raise in H as [H | (sol & _ & H)]; [eauto 9 | ].
    discriminate H.
Qed.

Lemma solve_equation_passes sympy equation_str b :
  occurs "=" equation_str = true ->
  derives_from_Exception b = false ->
  Sympy.sympify sympy
    (fst (split_once "=" (str_replace "^" "**" equation_str))) = Raise b ->
  solve_equation sympy equation_str = Raise b.
Proof.
  intros Ho Hb Hs. unfold solve_equation.
  rewrite contains_char, occurs_str_replace, Ho by reflexivity.
  cbn [negb bind].
  destruct (split_once _ _) as [left_s right_s]. cbn [fst] in Hs.
  rewrite Hs. destruct b; [discriminate Hb | reflexivity ..].
Qed.

Lemma solve_equation_returns sympy equation_str :
  raises_only_Exception sympy ->
  exists answer, solve_equation sympy equation_str = Return answer.
Proof.
  intros (Hsympify & Hfree & Hsmall & Hsolve). unfold solve_equation.
  apply try_except_Exception_returns; [ | eauto].
  apply ordinary_bind; [destruct (negb _); exact I | intros _].
  destruct (split_once _ _) as [left_s right_s].
  apply ordinary_bind; [apply Hsympify | intros l].
  apply ordinary_bind; [apply Hsympify | intros r].
  apply ordinary_bind; [apply Hfree | intros vars].
  destruct vars.
  - apply ordinary_bind; [apply Hsmall | intros []; exact I].
  - apply ordinary_bind; [apply Hsolve | intros sol; exact I].
Qed.

(** C8, as amended.  The word-problem heuristic returns a text on every
    input: its handlers are bare.  The equation solver returns a text
    whenever sympy returns or raises an exception derived from
    [Exception].  Its handler is [except Exception]: whatever else it
    ends in is an exception that is not derived from [Exception]
    ([SystemExit], [KeyboardInterrupt], [GeneratorExit] or an instance of
    another class derived from [BaseException] only) and that a call into
    sympy raised; and every such exception that [sympify] raises on the
    left side of the equation comes out of the solver as it is. *)
Theorem collaborators_return_text :
  (forall strings text,
     exists answer, solve_text_problem strings text = Return answer)
  /\ (forall sympy equation_str,
        raises_only_Exception sympy ->
        exists answer, solve_equation sympy equation_str = Return answer)
  /\ (forall sympy equation_str b,
        solve_equation sympy equation_str = Raise b ->
        derives_from_Exception b = false /\ raised_by sympy b)
  /\ (forall sympy equation_str b,
        occurs "=" equation_str = true ->
        derives_from_Exception b = false ->
        Sympy.sympify sympy
          (fst (split_once "=" (str_replace "^" "**" equation_str))) = Raise b ->
        solve_equation sympy equation_str = Raise b).
Proof.
  split; [exact solve_text_problem_returns | ].
  split; [exact solve_equation_returns | ].
  split; [exact solve_equation_outcome | exact solve_equation_passes].
Qed.

Lemma collaborators_return_text_witness :
  (exists answer, solve_equation Reference.sympy "3*x - 6 = 12" = Return answer)
  /\ solve_equation Reference.exiting_sympy "__import__('sys').exit() = 0"
     = Raise SystemExit.
Proof.
  split.
  - apply (proj1 (proj2 collaborators_return_text) Reference.sympy "3*x - 6 = 12").
    repeat split; intros; exact I.
  - apply (proj2 (proj2 (proj2 collaborators_return_text))
             Reference.exiting_sympy "__import__('sys').exit() = 0");
      reflexivity.
Defined.

(** C8, the counterexample.  When [sympify] evaluates the text
    [__import__('sys').exit()] the interpreter raises [SystemExit], which
    [except Exception] does not catch: the solver returns no text. *)
Lemma solve_equation_passes_SystemExit :
  ~ exists answer,
      solve_equation Reference.exiting_sympy "__import__('sys').exit() = 0"
      = Return answer.
Proof.
  intros [answer H]. vm_compute in H. discriminate H.
Qed.

(** ** The history *)

(** C9.  A submission whose query is not empty, once its answer is there,
    leaves the history log equal to the old log followed by the one line
    "[ts] (mode) query -> result" and a line end; the view shows the same
    line after the old text.  The old entries keep their places. *)
Theorem submission_appends_one_line libm ast_parse strings sympy ts self self' :
  let query :=
    str_strip strings (SmartCalcApp.input_text self ++ SmartCalcApp.newline) in
  is_empty query = false ->
  SmartCalcApp.solve libm ast_parse strings sympy ts self = Return self' ->
  exists result,
    let line :=
      "[" ++ ts ++ "] (" ++ SmartCalcApp.mode_var self ++ ") " ++ query
      ++ " -> " ++ result ++ SmartCalcApp.newline in
    SmartCalcApp.history self' = (SmartCalcApp.history self ++ [line])%list
    /\ SmartCalcApp.history_text self' = SmartCalcApp.history_text self ++ line
    /\ List.length (SmartCalcApp.history self')
       = S (List.length (SmartCalcApp.history self))
    /\ forall i entry,
         nth_error (SmartCalcApp.history self) i = Some entry ->
         nth_error (SmartCalcApp.history self') i = Some entry.
Proof.
  intros query Hq H. unfold SmartCalcApp.solve in H. fold query in H.
  rewrite Hq in H.
  apply bind_Return in H as ([result st] & Hr & H).
  injection H as <-. exists result.
  assert (Hst : exists label, st = SmartCalcApp.set_result_label label self).
  { destruct (String.eqb _ "Izraz").
    - destruct (bind (evaluate_expression _ _ _) _);
        injection Hr as _ <-; eauto.
    - destruct (String.eqb _ _);
        apply bind_Return in Hr as (out & _ & Hr);
        injection Hr as _ <-; eauto. }
  destruct Hst as [label ->]. cbn.
  split; [reflexivity | split; [reflexivity | split]].
  - rewrite length_app. simpl. lia.
  - intros i entry Hi. rewrite nth_error_app1; [assumption | ].
    apply nth_error_Some. congruence.
Qed.

Lemma submission_appends_one_line_witness :
  exists result,
    SmartCalcApp.history
      (SmartCalcApp.append_history "2025-03-01 12:00:00" "Tekstualni"
         "Auto ide 60 km/h koliko pređe za 2 sata?" "Rezultat: 120 (km)"
         (SmartCalcApp.set_result_label "Rezultat: 120 (km)" Reference.demo_form))
    = ["[2025-03-01 12:00:00] (Tekstualni) Auto ide 60 km/h koliko pređe za 2 sata? -> "
       ++ result ++ SmartCalcApp.newline].
Proof.
  destruct (submission_appends_one_line Reference.numerics Parser.py_parse
              Reference.strings Reference.sympy "2025-03-01 12:00:00"
              Reference.demo_form
              (SmartCalcApp.append_history "2025-03-01 12:00:00" "Tekstualni"
                 "Auto ide 60 km/h koliko pređe za 2 sata?" "Rezultat: 120 (km)"
                 (SmartCalcApp.set_result_label "Rezultat: 120 (km)"
                    Reference.demo_form)))
    as (result & Hh & _).
  - reflexivity.
  - vm_compute; reflexivity.
  - exists result. exact Hh.
Defined.

(** ** Termination of the walk *)

Section TerminationFacts.

Variable libm : Numerics.

Lemma recursive_calls_decrease t c :
  In c (recursive_calls libm t) ->
  sub_node c t /\ (walk_height c < walk_height t)%nat.
Proof.
  destruct t; simpl; try contradiction.
  - intros [<- | []]. split; [constructor | lia].
  - destruct (ALLOWED_OPERATORS libm op); simpl; [ | contradiction].
    intros [<- | [<- | []]]; (split; [constructor | lia]).
  - destruct (ALLOWED_OPERATORS libm op); simpl; [ | contradiction].
    intros [<- | []]. split; [constructor | lia].
Qed.

Lemma safe_eval_within_height t :
  forall limit, (walk_height t <= limit)%nat ->
  safe_eval_within libm limit t = Some (safe_eval libm t).
Proof.
  induction t as [body IH | c | l op r IHl IHr | op o IH | t Ht] using walk_ind;
    intros [|limit] H; simpl in H; try lia.
  - simpl. apply IH. lia.
  - simpl. destruct (isinstance_Num c); [reflexivity | ].
    destruct (isinstance_int_float c); reflexivity.
  - simpl. destruct (ALLOWED_OPERATORS libm op); [ | reflexivity].
    rewrite IHl, IHr by lia.
    destruct (safe_eval libm l); simpl; [ | reflexivity].
    destruct (safe_eval libm r); reflexivity.
  - simpl. destruct (ALLOWED_OPERATORS libm op); [ | reflexivity].
    rewrite IH by lia.
    destruct (safe_eval libm o); reflexivity.
  - destruct t; try discriminate Ht; simpl in H; lia.
  - destruct t; try discriminate Ht; reflexivity.
Qed.

End TerminationFacts.

Lemma sub_node_well_founded : well_founded sub_node.
Proof.
  intros t.
  induction t as [body IH | c | l op r IHl IHr | op o IH | t Ht] using walk_ind;
    constructor; intros y Hy; inversion Hy; subst; try assumption;
    discriminate Ht.
Qed.

(** C10.  The walk terminates on every tree: each recursive call of
    [safe_eval] is on an immediate sub-node (the body, the left or right
    operand, the operand), which is lower; sub-node chains are finite; and
    a call depth equal to the height of the tree is enough to reach the
    result of the total function. *)
Theorem safe_eval_terminates libm t :
  (forall c, In c (recursive_calls libm t) ->
             sub_node c t /\ (walk_height c < walk_height t)%nat)
  /\ Acc sub_node t
  /\ safe_eval_within libm (walk_height t) t = Some (safe_eval libm t)
  /\ exists result, safe_eval libm t = result
                    /\ forall limit, (walk_height t <= limit)%nat ->
                                     safe_eval_within libm limit t = Some result.
Proof.
  split; [apply recursive_calls_decrease | ].
  split; [apply sub_node_well_founded | ].
  split; [apply safe_eval_within_height; lia | ].
  eexists; split; [reflexivity | apply safe_eval_within_height].
Qed.

(** * Further properties of the code *)

(** ** Normalisation of the caret *)

Lemma str_replace_removes old new s :
  occurs old new = false -> occurs old (str_replace old new s) = false.
Proof.
  intros Hnew. induction s as [|c s IH]; simpl; [reflexivity | ].
  destruct (Ascii.eqb c old) eqn:E.
  - rewrite occurs_app, Hnew, IH. reflexivity.
  - simpl. rewrite E, IH. reflexivity.
Qed.

(** X1.  No caret is left in the text handed to the parser, a text without
    carets is handed over unchanged, and [evaluate_expression] uses its
    parser on caret-free texts only: two parsers that agree on those give
    the same results on every input. *)
Theorem caret_never_reaches_parser :
  (forall s, occurs "^" (str_replace "^" "**" s) = false)
  /\ (forall s, occurs "^" s = false -> str_replace "^" "**" s = s)
  /\ (forall libm p1 p2,
        (forall s, occurs "^" s = false -> p1 s = p2 s) ->
        forall s, evaluate_expression libm p1 s = evaluate_expression libm p2 s).
Proof.
  split; [ | split].
  - intros s. apply str_replace_removes. reflexivity.
  - intros s. apply str_replace_absent.
  - intros libm p1 p2 H s. unfold evaluate_expression.
    rewrite (H (str_replace "^" "**" s)); [reflexivity | ].
    apply str_replace_removes. reflexivity.
Qed.

Lemma caret_never_reaches_parser_witness :
  str_replace "^" "**" "(5 + 3) * 2" = "(5 + 3) * 2"
  /\ evaluate_expression Reference.numerics Parser.py_parse "4^2"
     = evaluate_expression Reference.numerics
         (fun s => if occurs "^" s then Parser.syntax_error else Parser.py_parse s)
         "4^2".
Proof.
  destruct caret_never_reaches_parser as (_ & Hsame & Hparsers).
  split.
  - apply Hsame. reflexivity.
  - apply Hparsers. intros s Hs. rewrite Hs. reflexivity.
Defined.

(** ** Order of the checks in a binary operation *)

(** X2.  In a binary operation the operator is checked before the
    operands are looked at, and the operands are evaluated left to right:
    a refused operator gives "Operator nije dozvoljen." whatever the
    operands are; with an allowed operator the failure of the left operand
    is the failure of the operation whatever the right operand is, and the
    failure of the right operand shows only when the left one has a
    value. *)
Theorem operands_fail_in_order libm l op r :
  (ALLOWED_OPERATORS libm op = None ->
   safe_eval libm (BinOp l op r) = raise ValueError "Operator nije dozvoljen.")
  /\ (forall e,
        ALLOWED_OPERATORS libm op <> None ->
        safe_eval libm l = Raise e ->
        safe_eval libm (BinOp l op r) = Raise e)
  /\ (forall v e,
        ALLOWED_OPERATORS libm op <> None ->
        safe_eval libm l = Return v ->
        safe_eval libm r = Raise e ->
        safe_eval libm (BinOp l op r) = Raise e).
Proof.
  split; [ | split].
  - intros H. simpl. rewrite H. reflexivity.
  - intros e H Hl. simpl.
    destruct (ALLOWED_OPERATORS libm op); [ | congruence].
    rewrite Hl. reflexivity.
  - intros v e H Hl Hr. simpl.
    destruct (ALLOWED_OPERATORS libm op); [ | congruence].
    rewrite Hl. simpl. rewrite Hr. reflexivity.
Qed.

Lemma operands_fail_in_order_witness :
  safe_eval Reference.numerics
    (BinOp (Name "x") FloorDiv (Constant (CStr "a")))
  = raise ValueError "Operator nije dozvoljen."
  /\ safe_eval Reference.numerics
       (BinOp (Name "x") Add (Constant (CStr "a")))
     = raise ValueError "Nevažeći izraz."
  /\ safe_eval Reference.numerics
       (BinOp (Constant (CNum (VInt 1))) Add (Constant (CStr "a")))
     = raise ValueError "Dozvoljeni su samo brojevi.".
Proof.
  split; [ | split].
  - apply (proj1 (operands_fail_in_order Reference.numerics (Name "x") FloorDiv
                    (Constant (CStr "a")))).
    reflexivity.
  - apply (proj1 (proj2 (operands_fail_in_order Reference.numerics (Name "x") Add
                           (Constant (CStr "a"))))).
    + discriminate.
    + reflexivity.
  - apply (proj2 (proj2 (operands_fail_in_order Reference.numerics
                           (Constant (CNum (VInt 1))) Add (Constant (CStr "a"))))
             (VInt 1)).
    + discriminate.
    + reflexivity.
    + reflexivity.
Defined.

(** ** True division of integers *)

Lemma iter_pos_invariant {A} (P : A -> Prop) (f : A -> A) :
  (forall x, P x -> P (f x)) ->
  forall p x, P x -> P (iter_pos f p x).
Proof.
  intros Hf. induction p as [p IH | p IH | ]; simpl; intros x Hx; auto.
Qed.

Lemma shr_1_nonneg mrs : 0 <= shr_m mrs -> 0 <= shr_m (shr_1 mrs).
Proof.
  destruct mrs as [m r s]. simpl.
  destruct m as [|[p|p|]|[p|p|]]; simpl; lia.
Qed.

Lemma shr_fexp_nonneg m e l :
  0 <= m -> 0 <= shr_m (fst (shr_fexp prec emax m e l)).
Proof.
  intros Hm. unfold shr_fexp, shr.
  assert (H0 : 0 <= shr_m (shr_record_of_loc m l))
    by (destruct l as [|[| |]]; simpl; assumption).
  destruct (fexp prec emax (Zdigits2 m + e) - e); simpl; try assumption.
  apply (iter_pos_invariant (fun mrs => 0 <= shr_m mrs)); [ | assumption].
  apply shr_1_nonneg.
Qed.

Lemma round_nearest_even_nonneg m l : 0 <= m -> 0 <= round_nearest_even m l.
Proof.
  intros Hm. destruct l as [|[| |]]; simpl; try destruct (Z.even m); lia.
Qed.

(** Rounding a non-negative mantissa gives a zero, a finite double or an
    infinity, never a NaN. *)
Lemma binary_round_aux_not_nan s m e l :
  0 <= m -> binary_round_aux prec emax s m e l <> S754_nan.
Proof.
  intros Hm. unfold binary_round_aux.
  pose proof (shr_fexp_nonneg m e l Hm) as H1.
  destruct (shr_fexp prec emax m e l) as [mrs' e'].
  simpl in H1.
  pose proof (shr_fexp_nonneg
                (round_nearest_even (shr_m mrs') (loc_of_shr_record mrs')) e'
                loc_Exact (round_nearest_even_nonneg _ _ H1)) as H2.
  destruct (shr_fexp prec emax _ e' loc_Exact) as [mrs'' e''].
  simpl in H2.
  destruct (shr_m mrs'') as [|p|p]; [discriminate | | lia].
  destruct (e'' <=? emax - prec); discriminate.
Qed.

Lemma SFdiv_core_binary_nonneg m1 e1 m2 e2 :
  0 <= m1 -> 0 < m2 ->
  0 <= fst (fst (SFdiv_core_binary prec emax m1 e1 m2 e2)).
Proof.
  intros H1 H2. unfold SFdiv_core_binary.
  set (s := e1 - e2 - _).
  set (m' := match s with Z.pos _ => Z.shiftl m1 s | 0 => m1 | Z.neg _ => 0 end).
  assert (Hm' : 0 <= m').
  { subst m'. destruct s; [assumption | apply Z.shiftl_nonneg; assumption | lia]. }
  pose proof (Z.div_pos m' m2 Hm' H2) as Hq. unfold Z.div in Hq.
  destruct (Z.div_eucl m' m2) as [q r]. exact Hq.
Qed.

Lemma int_true_divide_number a b :
  b <> 0 ->
  (exists x, int_true_divide a b = Return (VFloat x) /\ float_is_number x = true)
  \/ int_true_divide a b
     = raise OverflowError "integer division result too large for a float".
Proof.
  intros Hb. unfold int_true_divide.
  apply Z.eqb_neq in Hb as Hb'. rewrite Hb'.
  destruct (a =? 0); [left; eexists; split; reflexivity | ].
  pose proof (SFdiv_core_binary_nonneg (Z.abs a) 0 (Z.abs b) 0
                (Z.abs_nonneg a) ltac:(lia)) as Hq.
  destruct (SFdiv_core_binary prec emax (Z.abs a) 0 (Z.abs b) 0) as [[q e] loc].
  simpl in Hq.
  pose proof (binary_round_aux_not_nan (xorb (a <? 0) (b <? 0)) q e loc Hq) as Hn.
  destruct (binary_round_aux prec emax _ q e loc);
    [left; eexists; split; reflexivity | right; reflexivity | congruence
    | left; eexists; split; reflexivity].
Qed.

(** X3.  The quotient of two integers, the divisor not zero, is a double
    that is a number, a zero or a finite value; where the quotient is too
    large the division fails.  It is never an infinity or a NaN. *)
Theorem integer_quotient_is_a_number libm l r a b :
  safe_eval libm l = Return (VInt a) ->
  safe_eval libm r = Return (VInt b) ->
  b <> 0 ->
  (exists x,
     safe_eval libm (BinOp l Div r) = Return (VFloat x)
     /\ float_is_number x = true)
  \/ safe_eval libm (BinOp l Div r)
     = raise OverflowError "integer division result too large for a float".
Proof.
  intros Hl Hr Hb.
  erewrite safe_eval_BinOp_values by (try reflexivity; eassumption).
  apply int_true_divide_number. assumption.
Qed.

Lemma integer_quotient_is_a_number_witness :
  exists x,
    safe_eval Reference.numerics
      (BinOp (Constant (CNum (VInt 1))) Div (Constant (CNum (VInt 3))))
    = Return (VFloat x)
    /\ float_is_number x = true.
Proof.
  destruct (integer_quotient_is_a_number Reference.numerics
              (Constant (CNum (VInt 1))) (Constant (CNum (VInt 3))) 1 3
              eq_refl eq_refl) as [H | H].
  - discriminate.
  - exact H.
  - discriminate H.
Defined.

(** ** Modulo, signs and float arithmetic *)

(** X4.  The modulo of two integers, the divisor not zero, has the sign of
    the divisor and is smaller than it in size, and differs from the
    dividend by a multiple of the divisor: floor modulo, not the
    remainder of truncated division. *)
Theorem integer_modulo_follows_divisor libm l r a b :
  safe_eval libm l = Return (VInt a) ->
  safe_eval libm r = Return (VInt b) ->
  b <> 0 ->
  exists m,
    safe_eval libm (BinOp l Mod r) = Return (VInt m)
    /\ (0 <= m < b \/ b < m <= 0)
    /\ exists q, a = b * q + m.
Proof.
  intros Hl Hr Hb. exists (a mod b). split; [ | split].
  - erewrite safe_eval_BinOp_values by (try reflexivity; eassumption).
    cbv [call2 op_mod int_like].
    apply Z.eqb_neq in Hb. rewrite Hb. reflexivity.
  - destruct (Z.lt_ge_cases 0 b) as [Hpos | Hneg].
    + left. apply Z.mod_pos_bound. assumption.
    + right. apply Z.mod_neg_bound. lia.
  - exists (a / b). apply Z.div_mod. assumption.
Qed.

Lemma integer_modulo_follows_divisor_witness :
  exists m,
    safe_eval Reference.numerics
      (BinOp (UnaryOp USub (Constant (CNum (VInt 7)))) Mod (Constant (CNum (VInt 3))))
    = Return (VInt m)
    /\ (0 <= m < 3 \/ 3 < m <= 0)
    /\ exists q, -7 = 3 * q + m.
Proof.
  apply (integer_modulo_follows_divisor Reference.numerics
           (UnaryOp USub (Constant (CNum (VInt 7)))) (Constant (CNum (VInt 3)))
           (-7) 3).
  - reflexivity.
  - reflexivity.
  - discriminate.
Defined.

Lemma SFopp_involutive x : SFopp (SFopp x) = x.
Proof. destruct x as [s|s| |s m e]; simpl; try rewrite negb_involutive; reflexivity. Qed.

(** X5.  The unary signs on a number that is not a [bool]: plus gives the
    number back and two minus signs cancel, for integers, floats (signed
    zeros, infinities and NaN included) and complex numbers.  On a [bool]
    they give the integer 1 or 0 (with one minus sign, -1 or 0). *)
Theorem signs_cancel libm t v :
  safe_eval libm t = Return v ->
  (forall b, v <> VBool b) ->
  safe_eval libm (UnaryOp UAdd t) = Return v
  /\ safe_eval libm (UnaryOp USub (UnaryOp USub t)) = Return v.
Proof.
  intros Ht Hv. split.
  - erewrite safe_eval_UnaryOp_value by (try reflexivity; eassumption).
    destruct v; try reflexivity. exfalso; eapply Hv; reflexivity.
  - assert (Hinner : safe_eval libm (UnaryOp USub t) = op_neg v)
      by (erewrite safe_eval_UnaryOp_value by (try reflexivity; eassumption);
          reflexivity).
    destruct v as [n|b|x|re im]; simpl in Hinner;
      try (exfalso; eapply Hv; reflexivity);
      erewrite safe_eval_UnaryOp_value by (try reflexivity; exact Hinner);
      simpl.
    + rewrite Z.opp_involutive. reflexivity.
    + rewrite SFopp_involutive. reflexivity.
    + rewrite !SFopp_involutive. reflexivity.
Qed.

Lemma signs_cancel_witness :
  safe_eval Reference.numerics
    (UnaryOp UAdd (Constant (CNum (VFloat (S754_zero true)))))
  = Return (VFloat (S754_zero true))
  /\ safe_eval Reference.numerics
       (UnaryOp USub (UnaryOp USub (Constant (CNum (VFloat (S754_zero true))))))
     = Return (VFloat (S754_zero true)).
Proof.
  apply (signs_cancel Reference.numerics
           (Constant (CNum (VFloat (S754_zero true)))) (VFloat (S754_zero true))).
  - reflexivity.
  - discriminate.
Defined.

(** X6.  Addition, subtraction and multiplication of two floats never
    fail: the result is the rounded double, and an overflow comes back as
    an infinity, as 2^1023 times 2.0 does. *)
Theorem float_arithmetic_never_fails :
  (forall libm l r x y,
     safe_eval libm l = Return (VFloat x) ->
     safe_eval libm r = Return (VFloat y) ->
     safe_eval libm (BinOp l Add r) = Return (VFloat (SFadd prec emax x y))
     /\ safe_eval libm (BinOp l Sub r) = Return (VFloat (SFsub prec emax x y))
     /\ safe_eval libm (BinOp l Mult r) = Return (VFloat (SFmul prec emax x y)))
  /\ (exists x y,
        float_is_number x = true /\ float_is_number y = true
        /\ forall libm,
             safe_eval libm
               (BinOp (Constant (CNum (VFloat x))) Mult (Constant (CNum (VFloat y))))
             = Return (VFloat (S754_infinity false))).
Proof.
  split.
  - intros libm l r x y Hl Hr.
    repeat split;
      erewrite safe_eval_BinOp_values by (try reflexivity; eassumption);
      reflexivity.
  - exists (S754_finite false 4503599627370496 971),
           (S754_finite false 4503599627370496 (-51)).
    split; [reflexivity | split; [reflexivity | ] ].
    intros libm. vm_compute. reflexivity.
Qed.

Lemma float_arithmetic_never_fails_witness :
  safe_eval Reference.numerics
    (BinOp (Constant (CNum (VFloat (S754_finite false 4503599627370496 (-52)))))
       Sub (Constant (CNum (VFloat (S754_finite false 4503599627370496 (-52))))))
  = Return (VFloat (S754_zero false)).
Proof.
  apply (proj1 (proj2 (proj1 float_arithmetic_never_fails Reference.numerics
                         (Constant (CNum (VFloat (S754_finite false 4503599627370496 (-52)))))
                         (Constant (CNum (VFloat (S754_finite false 4503599627370496 (-52)))))
                         _ _ eq_refl eq_refl))).
Defined.

(** ** The equation solver *)

Lemma split_once_first sep left_s right_s :
  occurs sep left_s = false ->
  split_once sep (left_s ++ String sep right_s) = (left_s, right_s).
Proof.
  induction left_s as [|c l IH]; simpl; intros H.
  - rewrite Ascii.eqb_refl. reflexivity.
  - apply orb_false_iff in H as [Hc Hl].
    rewrite Hc, (IH Hl). reflexivity.
Qed.

Lemma split_once_joins sep s :
  occurs sep s = true ->
  s = fst (split_once sep s) ++ String sep (snd (split_once sep s))
  /\ occurs sep (fst (split_once sep s)) = false.
Proof.
  induction s as [|c s IH]; simpl; intros H; [discriminate H | ].
  destruct (Ascii.eqb c sep) eqn:E.
  - apply Ascii.eqb_eq in E. subst c. split; reflexivity.
  - simpl in H. destruct (IH H) as [Hs Ho].
    destruct (split_once sep s) as [a b]. simpl in *.
    rewrite E, Ho. split; [congruence | reflexivity].
Qed.

(** X7.  A text without an equals sign is answered with the fixed message
    "Greška pri rešavanju: Jednačina mora sadržati '='." and sympy is not
    consulted: the answer is the same for every sympy, also one that
    would end the program. *)
Theorem equation_needs_equals_sign sympy s :
  occurs "=" s = false ->
  solve_equation sympy s
  = Return "Greška pri rešavanju: Jednačina mora sadržati '='.".
Proof.
  intros H. unfold solve_equation.
  rewrite contains_char, occurs_str_replace, H by reflexivity.
  reflexivity.
Qed.

Lemma equation_needs_equals_sign_witness :
  solve_equation Reference.exiting_sympy "__import__('sys').exit()"
  = Return "Greška pri rešavanju: Jednačina mora sadržati '='.".
Proof.
  apply equation_needs_equals_sign. reflexivity.
Defined.

(** X8.  The equation is cut at its first equals sign: the two sides put
    together again are the normalised text and the left side has no
    equals sign.  The left side goes to sympy first: when sympy refuses
    it, the answer carries that message and the right side is not looked
    at; the message of the right side shows only when the left side was
    accepted. *)
Theorem equation_sides_in_order sympy s :
  occurs "=" s = true ->
  let sides := split_once "=" (str_replace "^" "**" s) in
  str_replace "^" "**" s = fst sides ++ "=" ++ snd sides
  /\ occurs "=" (fst sides) = false
  /\ (forall e,
        Sympy.sympify sympy (fst sides) = Raise (Exc e) ->
        solve_equation sympy s
        = Return ("Greška pri rešavanju: " ++ exc_message e))
  /\ (forall left e,
        Sympy.sympify sympy (fst sides) = Return left ->
        Sympy.sympify sympy (snd sides) = Raise (Exc e) ->
        solve_equation sympy s
        = Return ("Greška pri rešavanju: " ++ exc_message e)).
Proof.
  intros H sides.
  assert (Ho : occurs "=" (str_replace "^" "**" s) = true)
    by (rewrite occurs_str_replace by reflexivity; assumption).
  destruct (split_once_joins "=" _ Ho) as [Hjoin Hleft].
  fold sides in Hjoin, Hleft.
  split; [exact Hjoin | split; [exact Hleft | ] ].
  split.
  - intros e He. unfold solve_equation.
    rewrite contains_char, Ho. cbn [negb bind].
    fold sides. destruct sides as [l r]. cbn [fst] in He.
    rewrite He. reflexivity.
  - intros left e Hl Hr. unfold solve_equation.
    rewrite contains_char, Ho. cbn [negb bind].
    fold sides. destruct sides as [l r]. cbn [fst snd] in Hl, Hr.
    rewrite Hl. cbn [bind]. rewrite Hr. reflexivity.
Qed.

Lemma equation_sides_in_order_witness :
  solve_equation Reference.sympy "3*x - 6 = 12 = y"
  = Return "Greška pri rešavanju: could not parse '3*x - 6 '".
Proof.
  apply (proj1 (proj2 (proj2 (equation_sides_in_order Reference.sympy
                                "3*x - 6 = 12 = y" eq_refl)))
           (mk_exception SympifyError "could not parse '3*x - 6 '")).
  reflexivity.
Defined.

(** X9.  The solver reads the caret as the power operator: an equation
    and the same equation with every caret written [**] have the same
    answer, for every sympy. *)
Theorem equation_caret_is_power sympy s :
  solve_equation sympy s = solve_equation sympy (str_replace "^" "**" s).
Proof.
  unfold solve_equation. rewrite str_replace_idempotent; reflexivity.
Qed.

(** ** The word-problem heuristic *)

Lemma prefix_app_left a b s :
  String.prefix (a ++ b) s = true -> String.prefix a s = true.
Proof.
  revert s. induction a as [|c a IH]; intros s H; [destruct s; reflexivity | ].
  destruct s as [|d s]; simpl in *; [discriminate H | ].
  destruct (ascii_dec c d); [apply IH; exact H | discriminate H].
Qed.

Lemma prefix_contains b s : String.prefix b s = true -> contains b s = true.
Proof.
  intros H. destruct s; cbn [contains]; rewrite H; reflexivity.
Qed.

Lemma prefix_app_right a b s :
  String.prefix (a ++ b) s = true -> contains b s = true.
Proof.
  revert s. induction a as [|c a IH]; intros s H.
  - apply prefix_contains. exact H.
  - destruct s as [|d s]; simpl in H; [discriminate H | ].
    destruct (ascii_dec c d); [ | discriminate H].
    cbn [contains]. rewrite (IH _ H). apply orb_true_r.
Qed.

Lemma contains_app a b s :
  contains (a ++ b) s = true -> contains a s = true /\ contains b s = true.
Proof.
  induction s as [|d s IH]; intros H; cbn [contains] in H;
    apply orb_true_iff in H as [H | H].
  - split; [apply prefix_contains, (prefix_app_left _ _ _ H)
           | apply (prefix_app_right _ _ _ H)].
  - discriminate H.
  - split; [apply prefix_contains, (prefix_app_left _ _ _ H)
           | apply (prefix_app_right _ _ _ H)].
  - destruct (IH H) as [Ha Hb]. cbn [contains]. rewrite Ha, Hb.
    split; apply orb_true_r.
Qed.

Lemma speed_keywords t :
  contains "km/h" t || contains "kmh" t || (contains "km" t && contains "h" t)
  = contains "km" t && contains "h" t.
Proof.
  destruct (contains "km" t && contains "h" t) eqn:E;
    [apply orb_true_r | rewrite orb_false_r].
  destruct (contains "km/h" t) eqn:E1.
  - destruct (contains_app "km" "/h" t E1) as [Hkm _].
    destruct (contains_app "km/" "h" t E1) as [_ Hh].
    rewrite Hkm, Hh in E. discriminate E.
  - destruct (contains "kmh" t) eqn:E2; [ | reflexivity].
    destruct (contains_app "km" "h" t E2) as [Hkm Hh].
    rewrite Hkm, Hh in E. discriminate E.
Qed.

(** X10.  The heuristic always returns a text, and which one is settled
    by three facts about the text in lower case: whether its first two
    integers have a product that can be printed, whether it has "km" and
    "h" somewhere (the tests for "km/h" and "kmh" add nothing to that),
    and whether it has an area word.  The speed answer wins over the area
    answer; without two integers both keywords give the fixed refusal. *)
Theorem text_answer_is_settled_by_keywords host text :
  let t := str_lower host text in
  solve_text_problem host text
  = Return
      match first_two_product host t with
      | Some product =>
          if contains "km" t && contains "h" t
          then "Rezultat: " ++ product ++ " (km)"
          else if contains "povrsin" t || contains "površin" t || contains "area" t
          then "Površina = " ++ product
          else "Ne mogu automatski rešiti ovaj tekstualni zadatak (probaj preciznije)."
      | None =>
          "Ne mogu automatski rešiti ovaj tekstualni zadatak (probaj preciznije)."
      end.
Proof.
  intros t. unfold solve_text_problem, first_two_product. fold t.
  rewrite speed_keywords.
  destruct (contains "km" t && contains "h" t);
    destruct (contains "povrsin" t || contains "površin" t || contains "area" t);
    destruct (numbers_in host t) as [[|a [|b rest]] | e]; cbn;
    try reflexivity;
    destruct (py_str host (VInt (a * b))); reflexivity.
Qed.

(** ** The form *)

Lemma chars_snoc s c :
  is_continuation c = false ->
  chars (s ++ String c EmptyString) = (chars s ++ [String c EmptyString])%list.
Proof.
  intros Hc. induction s as [|a s IH]; [reflexivity | ].
  cbn [append chars]. rewrite IH.
  destruct (chars s) as [|[|d ch] more]; cbn [List.app].
  - rewrite Hc. reflexivity.
  - reflexivity.
  - destruct (is_continuation d); reflexivity.
Qed.

Lemma lstrip_chars_blank host cs :
  Forall (fun c => str_isspace host c = true) cs -> lstrip_chars host cs = [].
Proof.
  induction 1 as [|c cs Hc _ IH]; simpl; [reflexivity | ].
  rewrite Hc. exact IH.
Qed.

Lemma str_strip_blank host s :
  str_isspace host SmartCalcApp.newline = true ->
  Forall (fun c => str_isspace host c = true) (chars s) ->
  str_strip host (s ++ SmartCalcApp.newline) = EmptyString.
Proof.
  intros Hnl Hs. unfold str_strip, SmartCalcApp.newline.
  rewrite chars_snoc by reflexivity.
  rewrite (lstrip_chars_blank host (chars s ++ _)); [reflexivity | ].
  apply Forall_app. split; [exact Hs | ].
  constructor; [exact Hnl | constructor].
Qed.

(** X11.  When every character of the input box is white space, the
    button "Reši" only shows the warning "Unesi zadatak prvo.": no
    solver is called, the result label and the history stay as they
    were.  This is the state the button "Obriši" leaves, whatever the
    box held before. *)
Theorem blank_submission_is_refused libm ast_parse strings sympy ts self :
  str_isspace strings SmartCalcApp.newline = true ->
  (Forall (fun c => str_isspace strings c = true)
     (chars (SmartCalcApp.input_text self)) ->
   SmartCalcApp.solve libm ast_parse strings sympy ts self
   = Return (SmartCalcApp.showwarning "Upozorenje" "Unesi zadatak prvo." self))
  /\ SmartCalcApp.solve libm ast_parse strings sympy ts
       (SmartCalcApp.clear_input self)
     = Return (SmartCalcApp.showwarning "Upozorenje" "Unesi zadatak prvo."
                 (SmartCalcApp.clear_input self)).
Proof.
  intros Hnl. split; [intros Hs | ]; unfold SmartCalcApp.solve.
  - rewrite (str_strip_blank _ _ Hnl Hs). reflexivity.
  - rewrite (str_strip_blank _ _ Hnl); [reflexivity | constructor].
Qed.

Lemma blank_submission_is_refused_witness :
  SmartCalcApp.solve Reference.numerics Parser.py_parse Reference.strings
    Reference.sympy "2025-03-01 12:00:00"
    (SmartCalcApp.set_input_text (String "009" " ") SmartCalcApp.init)
  = Return
      (SmartCalcApp.showwarning "Upozorenje" "Unesi zadatak prvo."
         (SmartCalcApp.set_input_text (String "009" " ") SmartCalcApp.init)).
Proof.
  apply (proj1 (blank_submission_is_refused Reference.numerics Parser.py_parse
                  Reference.strings Reference.sympy "2025-03-01 12:00:00"
                  (SmartCalcApp.set_input_text (String "009" " ")
                     SmartCalcApp.init) eq_refl)).
  repeat constructor.
Defined.

Lemma solve_outcomes libm ast_parse strings sympy ts self self' :
  SmartCalcApp.solve libm ast_parse strings sympy ts self = Return self' ->
  self' = SmartCalcApp.showwarning "Upozorenje" "Unesi zadatak prvo." self
  \/ exists query result label,
       self' = SmartCalcApp.append_history ts (SmartCalcApp.mode_var self)
                 query result (SmartCalcApp.set_result_label label self).
Proof.
  unfold SmartCalcApp.solve. intros H.
  destruct (is_empty _); [left; congruence | right].
  apply bind_Return in H as ([result st] & Hr & H).
  injection H as <-. eexists _, result.
  assert (Hst : exists label, st = SmartCalcApp.set_result_label label self).
  { destruct (String.eqb _ "Izraz").
    - destruct (bind (evaluate_expression _ _ _) _);
        injection Hr as _ <-; eauto.
    - destruct (String.eqb _ _);
        apply bind_Return in Hr as (out & _ & Hr);
        injection Hr as _ <-; eauto. }
  destruct Hst as [label ->]. exists label. reflexivity.
Qed.

Lemma string_app_empty s : s ++ EmptyString = s.
Proof.
  induction s as [|c s IH]; simpl; [reflexivity | rewrite IH; reflexivity].
Qed.

Lemma concat_cons x l :
  String.concat EmptyString (x :: l) = x ++ String.concat EmptyString l.
Proof.
  destruct l; simpl; [rewrite string_app_empty | ]; reflexivity.
Qed.

Lemma concat_snoc l x :
  String.concat EmptyString (l ++ [x]) = String.concat EmptyString l ++ x.
Proof.
  induction l as [|a l IH]; [reflexivity | ].
  cbn [List.app]. rewrite !concat_cons, IH, string_app_assoc. reflexivity.
Qed.

Lemma save_history_keeps_log open_w path self r :
  SmartCalcApp.save_history open_w path self = Return r ->
  SmartCalcApp.history (fst r) = SmartCalcApp.history self
  /\ SmartCalcApp.history_text (fst r) = SmartCalcApp.history_text self.
Proof.
  unfold SmartCalcApp.save_history. intros H.
  destruct (SmartCalcApp.history self) eqn:Hh.
  - injection H as <-. simpl. auto.
  - destruct (is_empty path); [injection H as <-; simpl; auto | ].
    apply bind_Return in H as (u & _ & H). injection H as <-. simpl. auto.
Qed.

Lemma perform_keeps_log libm ast_parse strings sympy open_w a w w' :
  SmartCalcApp.perform libm ast_parse strings sympy open_w a w = Return w' ->
  (exists added,
     SmartCalcApp.history (SmartCalcApp.form w')
     = (SmartCalcApp.history (SmartCalcApp.form w) ++ added)%list
     /\ (List.length added <= if SmartCalcApp.is_solve a then 1 else 0)%nat)
  /\ (SmartCalcApp.in_sync (SmartCalcApp.form w) ->
      SmartCalcApp.in_sync (SmartCalcApp.form w')).
Proof.
  unfold SmartCalcApp.in_sync.
  destruct a as [text | mode | ts | | | path]; cbn [SmartCalcApp.perform];
    intros H;
    try (injection H as <-; cbn; split; [exists []; rewrite app_nil_r; auto | auto]).
  - apply bind_Return in H as (self & Hs & H). injection H as <-.
    cbn [SmartCalcApp.form].
    destruct (solve_outcomes _ _ _ _ _ _ _ Hs)
      as [-> | (query & result & label & ->)]; cbn.
    + split; [exists []; rewrite app_nil_r; auto | auto].
    + split; [eexists [_]; split; [reflexivity | simpl; lia] | ].
      intros ->. rewrite concat_snoc. reflexivity.
  - apply bind_Return in H as (r & Hr & H). injection H as <-.
    cbn [SmartCalcApp.form].
    destruct (SmartCalcApp.save_history open_w path (SmartCalcApp.form w))
      as [r' | e] eqn:E; [ | discriminate Hr].
    injection Hr as ->.
    destruct (save_history_keeps_log _ _ _ _ E) as [-> ->].
    split; [exists []; rewrite app_nil_r; cbn; auto | auto].
Qed.

Lemma run_keeps_log libm ast_parse strings sympy open_w actions :
  forall w w',
    SmartCalcApp.run libm ast_parse strings sympy open_w actions w = Return w' ->
    (exists added,
       SmartCalcApp.history (SmartCalcApp.form w')
       = (SmartCalcApp.history (SmartCalcApp.form w) ++ added)%list
       /\ (List.length added
           <= List.length (filter SmartCalcApp.is_solve actions))%nat)
    /\ (SmartCalcApp.in_sync (SmartCalcApp.form w) ->
        SmartCalcApp.in_sync (SmartCalcApp.form w')).
Proof.
  induction actions as [|a rest IH]; intros w w' H.
  - injection H as <-. split; [exists []; rewrite app_nil_r; auto | auto].
  - cbn [SmartCalcApp.run] in H. apply bind_Return in H as (w1 & H1 & H).
    destruct (perform_keeps_log _ _ _ _ _ _ _ _ H1) as [(add1 & E1 & L1) S1].
    destruct (IH _ _ H) as [(add2 & E2 & L2) S2].
    split; [ | auto].
    exists (add1 ++ add2)%list. rewrite E2, E1, <- app_assoc.
    split; [reflexivity | ].
    rewrite length_app. cbn [filter].
    destruct (SmartCalcApp.is_solve a); simpl; lia.
Qed.

(** X12.  Over a whole session (typing, picking modes, pressing the four
    buttons in any order) the history only grows at its end: the entries
    that were there keep their places, and at most one entry is added for
    each press of "Reši".  No button removes or rewrites an entry.  If
    the history view showed the entries of the list before, it does so
    after. *)
Theorem history_is_append_only libm ast_parse strings sympy open_w actions w w' :
  SmartCalcApp.run libm ast_parse strings sympy open_w actions w = Return w' ->
  (exists added,
     SmartCalcApp.history (SmartCalcApp.form w')
     = (SmartCalcApp.history (SmartCalcApp.form w) ++ added)%list
     /\ (List.length added
         <= List.length (filter SmartCalcApp.is_solve actions))%nat)
  /\ (SmartCalcApp.in_sync (SmartCalcApp.form w) ->
      SmartCalcApp.in_sync (SmartCalcApp.form w')).
Proof.
  apply run_keeps_log.
Qed.

Lemma history_is_append_only_witness :
  exists w',
    SmartCalcApp.run Reference.numerics Parser.py_parse Reference.strings
      Reference.sympy open_anything
      [SmartCalcApp.Type_text "2^3 + 1"; SmartCalcApp.Press_solve "2025-03-01 12:00:00";
       SmartCalcApp.Press_clear; SmartCalcApp.Press_solve "2025-03-01 12:00:05";
       SmartCalcApp.Pick_mode "Tekstualni"; SmartCalcApp.Press_demo;
       SmartCalcApp.Press_solve "2025-03-01 12:00:09";
       SmartCalcApp.Press_save "istorija.txt"]
      {| SmartCalcApp.form := SmartCalcApp.init; SmartCalcApp.disk := [] |}
    = Return w'
    /\ SmartCalcApp.in_sync (SmartCalcApp.form w').
Proof.
  match goal with
  | |- exists w', ?session = _ /\ _ => destruct session as [w' | e] eqn:E
  end; [ | vm_compute in E; discriminate E].
  exists w'. split; [reflexivity | ].
  apply (proj2 (history_is_append_only _ _ _ _ _ _ _ _ E)). reflexivity.
Defined.

(** X13.  What "Sačuvaj istoriju" writes is what the history view shows.
    After any session that started from the fresh form, a save to a
    non-empty path that the file system accepts leaves a file at that
    path whose content is the text of the view, that is all entries in
    order with nothing between them, and leaves the history as it was.
    With an empty history, or when the file dialog is cancelled, no file
    is written. *)
Theorem saved_file_is_the_visible_log
    libm ast_parse strings sympy open_w actions w path :
  SmartCalcApp.run libm ast_parse strings sympy open_w actions
    {| SmartCalcApp.form := SmartCalcApp.init; SmartCalcApp.disk := [] |}
  = Return w ->
  (SmartCalcApp.history (SmartCalcApp.form w) <> [] ->
   is_empty path = false ->
   open_w path = Return tt ->
   exists w',
     SmartCalcApp.perform libm ast_parse strings sympy open_w
       (SmartCalcApp.Press_save path) w = Return w'
     /\ SmartCalcApp.read_file path (SmartCalcApp.disk w')
        = Some (SmartCalcApp.history_text (SmartCalcApp.form w'))
     /\ SmartCalcApp.history (SmartCalcApp.form w')
        = SmartCalcApp.history (SmartCalcApp.form w))
  /\ (SmartCalcApp.history (SmartCalcApp.form w) = [] \/ is_empty path = true ->
      exists w',
        SmartCalcApp.perform libm ast_parse strings sympy open_w
          (SmartCalcApp.Press_save path) w = Return w'
        /\ SmartCalcApp.disk w' = SmartCalcApp.disk w).
Proof.
  intros Hrun.
  assert (Hsync : SmartCalcApp.in_sync (SmartCalcApp.form w)).
  { apply (proj2 (run_keeps_log _ _ _ _ _ _ _ _ Hrun)). reflexivity. }
  unfold SmartCalcApp.in_sync in Hsync.
  cbn [SmartCalcApp.perform]. unfold SmartCalcApp.save_history. split.
  - intros Hlog Hpath Hopen.
    destruct (SmartCalcApp.history (SmartCalcApp.form w)) as [|line log] eqn:Hh;
      [contradiction Hlog; reflexivity | ].
    rewrite Hpath, Hopen. cbn. eexists. split; [reflexivity | ].
    cbn. unfold SmartCalcApp.read_file. cbn.
    rewrite String.eqb_refl, Hsync. cbn. rewrite Hh. auto.
  - intros Hnone.
    destruct (SmartCalcApp.history (SmartCalcApp.form w)) as [|line log] eqn:Hh.
    + cbn. eexists. split; reflexivity.
    + destruct Hnone as [Hnone | Hnone]; [discriminate Hnone | ].
      rewrite Hnone. cbn. eexists. split; reflexivity.
Qed.

Lemma saved_file_is_the_visible_log_witness :
  exists w',
    SmartCalcApp.perform Reference.numerics Parser.py_parse Reference.strings
      Reference.sympy open_anything (SmartCalcApp.Press_save "istorija.txt")
      {| SmartCalcApp.form :=
           SmartCalcApp.append_history "2025-03-01 12:00:00" "Izraz" "2^3 + 1" "9"
             (SmartCalcApp.set_result_label "Rezultat: 9"
                (SmartCalcApp.set_input_text "2^3 + 1" SmartCalcApp.init));
         SmartCalcApp.disk := [] |}
    = Return w'
    /\ SmartCalcApp.read_file "istorija.txt" (SmartCalcApp.disk w')
       = Some (SmartCalcApp.history_text (SmartCalcApp.form w'))
    /\ SmartCalcApp.history (SmartCalcApp.form w')
       = ["[2025-03-01 12:00:00] (Izraz) 2^3 + 1 -> 9" ++ SmartCalcApp.newline].
Proof.
  assert (Hrun :
            SmartCalcApp.run Reference.numerics Parser.py_parse Reference.strings
              Reference.sympy open_anything
              [SmartCalcApp.Type_text "2^3 + 1";
               SmartCalcApp.Press_solve "2025-03-01 12:00:00"]
              {| SmartCalcApp.form := SmartCalcApp.init; SmartCalcApp.disk := [] |}
            = Return
                {| SmartCalcApp.form :=
                     SmartCalcApp.append_history "2025-03-01 12:00:00" "Izraz"
                       "2^3 + 1" "9"
                       (SmartCalcApp.set_result_label "Rezultat: 9"
                          (SmartCalcApp.set_input_text "2^3 + 1" SmartCalcApp.init));
                   SmartCalcApp.disk := [] |})
    by (vm_compute; reflexivity).
  apply (proj1 (saved_file_is_the_visible_log _ _ _ _ _ _ _ "istorija.txt" Hrun)).
  - discriminate.
  - reflexivity.
  - reflexivity.
Defined.

Lemma solve_returns libm ast_parse strings sympy ts self :
  String.eqb (SmartCalcApp.mode_var self) "Jednačina" = false
  \/ raises_only_Exception sympy ->
  exists self', SmartCalcApp.solve libm ast_parse strings sympy ts self = Return self'.
Proof.
  intros H. unfold SmartCalcApp.solve.
  destruct (is_empty _); [eauto | ].
  destruct (String.eqb _ "Izraz").
  - destruct (bind (evaluate_expression _ _ _) _); cbn; eauto.
  - destruct (String.eqb _ "Jednačina") eqn:E.
    + destruct H as [H | H]; [discriminate H | ].
      destruct (solve_equation_returns sympy
                  (str_strip strings
                     (SmartCalcApp.input_text self ++ SmartCalcApp.newline)) H)
        as [answer ->].
      cbn. eauto.
    + destruct (solve_text_problem_returns strings
                  (str_strip strings
                     (SmartCalcApp.input_text self ++ SmartCalcApp.newline)))
        as [answer ->].
      cbn. eauto.
Qed.

(** X14.  The button "Reši" always comes back with a form in the modes
    "Izraz" and "Tekstualni", whatever the input, the parser, the
    arithmetic and the printing of the result do: every failure of the
    evaluator and of the formatting of its result ends as the text
    "Greška: ..." in the label.  In the mode "Jednačina" it does so when
    sympy raises nothing outside [Exception]. *)
Theorem solve_button_always_answers libm ast_parse strings sympy ts self :
  String.eqb (SmartCalcApp.mode_var self) "Jednačina" = false
  \/ raises_only_Exception sympy ->
  exists self',
    SmartCalcApp.solve libm ast_parse strings sympy ts self = Return self'
    /\ (self' = SmartCalcApp.showwarning "Upozorenje" "Unesi zadatak prvo." self
        \/ exists query result label,
             self' = SmartCalcApp.append_history ts (SmartCalcApp.mode_var self)
                       query result (SmartCalcApp.set_result_label label self)).
Proof.
  intros H. destruct (solve_returns libm ast_parse strings _ ts self H) as [self' Hs].
  exists self'. split; [exact Hs | ].
  exact (solve_outcomes _ _ _ _ _ _ _ Hs).
Qed.

Lemma solve_button_always_answers_witness :
  exists self',
    SmartCalcApp.solve Reference.numerics Parser.py_parse Reference.strings
      Reference.exiting_sympy "2025-03-01 12:00:00"
      (SmartCalcApp.set_input_text "10**5000" SmartCalcApp.init)
    = Return self'.
Proof.
  destruct (solve_button_always_answers Reference.numerics Parser.py_parse
              Reference.strings Reference.exiting_sympy "2025-03-01 12:00:00"
              (SmartCalcApp.set_input_text "10**5000" SmartCalcApp.init)
              (or_introl eq_refl)) as (self' & Hs & _).
  exists self'. exact Hs.
Defined.

(** X15.  A session runs to its end, whatever the user types and presses,
    when sympy raises nothing outside [Exception] and every file the user
    picks can be opened for writing: no input makes a button end in an
    exception. *)
Theorem session_never_fails libm ast_parse strings sympy open_w actions w :
  raises_only_Exception sympy ->
  (forall path, open_w path = Return tt) ->
  exists w',
    SmartCalcApp.run libm ast_parse strings sympy open_w actions w = Return w'.
Proof.
  intros Hsympy Hopen. revert w.
  induction actions as [|a rest IH]; intros w; [simpl; eauto | ].
  cbn [SmartCalcApp.run].
  assert (H : exists w1,
             SmartCalcApp.perform libm ast_parse strings sympy open_w a w
             = Return w1).
  { destruct a as [text | mode | ts | | | path]; cbn [SmartCalcApp.perform];
      eauto.
    - destruct (solve_returns libm ast_parse strings sympy ts
                  (SmartCalcApp.form w) (or_intror Hsympy)) as [self' ->].
      cbn. eauto.
    - unfold SmartCalcApp.save_history.
      destruct (SmartCalcApp.history (SmartCalcApp.form w)); cbn; eauto.
      destruct (is_empty path); cbn; eauto.
      rewrite Hopen. cbn. eauto. }
  destruct H as [w1 ->]. cbn. apply IH.
Qed.

Lemma session_never_fails_witness :
  exists w',
    SmartCalcApp.run Reference.numerics Parser.py_parse Reference.strings
      Reference.sympy open_anything
      [SmartCalcApp.Type_text "1/0"; SmartCalcApp.Press_solve "2025-03-01 12:00:00";
       SmartCalcApp.Pick_mode "Jednačina"; SmartCalcApp.Press_demo;
       SmartCalcApp.Press_solve "2025-03-01 12:00:05";
       SmartCalcApp.Press_save "istorija.txt"]
      {| SmartCalcApp.form := SmartCalcApp.init; SmartCalcApp.disk := [] |}
    = Return w'.
Proof.
  apply session_never_fails.
  - repeat split; intros; exact I.
  - reflexivity.
Defined.
